(** * SOLPRISM integration of the Agent Treasury Manager

    A shallow embedding of the module that [index.ts] exports as
    [./integrations/solprism]: the reasoning formatter [toReasoningTrace],
    the commit / execute / reveal sequencing of
    [SolprismTreasury.executeAudited], and the in-memory session log with
    [getSessionLog] and [formatAuditReport].

    - JavaScript strings are sequences of UTF-16 code units.
    - Objects that the program shares by reference (the [actionLog] array, the
      arrays handed out by [getSessionLog], the audit records) live in an
      explicit object store and are named by their location.
    - The SOLPRISM client, the wall clock, the console and the caller's action
      are the outside world: every interaction is appended to a history, and
      the world's answers are given by an environment of oracles that may
      depend on the history so far.
    - An [async] function is a computation that either resolves to a value or
      rejects with the thrown value; the state reached before a [throw] is
      kept, as JavaScript has no rollback. *)

From Stdlib Require Import ZArith NArith Floats Lia.
From stdpp Require Import base option list strings gmap.

Local Open Scope Z_scope.
Set Warnings "-register-all".

(* ====================================================================== *)
(** ** JavaScript strings *)

Module Js.

(** A string is the list of its UTF-16 code units. *)
Abbreviation JsString := (list N) (only parsing).

(** A JavaScript [number]. The program only stores and forwards numbers. *)
Definition JsNumber : Type := float.

Definition ascii_bytes (s : string) : list N :=
  (fun a => Ascii.N_of_ascii a) <$> String.list_ascii_of_string s.

(** Code points of a UTF-8 byte sequence (the encoding of this file, and so of
    the literals below). *)
Fixpoint utf8_code_points (bs : list N) : list N :=
  match bs with
  | [] => []
  | b0 :: tl =>
    if (b0 <? 128)%N then b0 :: utf8_code_points tl
    else if (b0 <? 224)%N then
      match tl with
      | b1 :: tl1 => ((b0 mod 32) * 64 + b1 mod 64)%N :: utf8_code_points tl1
      | _ => []
      end
    else if (b0 <? 240)%N then
      match tl with
      | b1 :: b2 :: tl2 =>
        ((b0 mod 16) * 4096 + (b1 mod 64) * 64 + b2 mod 64)%N
          :: utf8_code_points tl2
      | _ => []
      end
    else
      match tl with
      | b1 :: b2 :: b3 :: tl3 =>
        ((b0 mod 8) * 262144 + (b1 mod 64) * 4096 + (b2 mod 64) * 64
           + b3 mod 64)%N :: utf8_code_points tl3
      | _ => []
      end
  end.

Definition utf16_units (cp : N) : list N :=
  if (cp <? 65536)%N then [cp]
  else [(55296 + (cp - 65536) / 1024)%N; (56320 + (cp - 65536) mod 1024)%N].

(** The JavaScript string denoted by a literal of the source text. *)
Definition js (s : string) : JsString :=
  utf8_code_points (ascii_bytes s) ≫= utf16_units.
Arguments js s%_string.

(** [a + b] and template literals. *)
Definition cat (parts : list JsString) : JsString := mjoin parts.

(** [String.prototype.slice(0, n)] for [n >= 0]: the first [n] code units. *)
Definition slice0 (n : nat) (s : JsString) : JsString := take n s.

(** [Array.prototype.join(sep)] on an array of strings. *)
Fixpoint join (sep : JsString) (xs : list JsString) : JsString :=
  match xs with
  | [] => []
  | [x] => x
  | x :: rest => x ++ sep ++ join sep rest
  end.

(** [String.prototype.toUpperCase] on the Basic Latin letters. The program
    applies it to the names of [TreasuryActionType] only, which are made of
    lower-case Basic Latin letters and [_]. *)
Definition toUpperCase (s : JsString) : JsString :=
  (fun c => if ((97 <=? c) && (c <=? 122))%N then (c - 32)%N else c) <$> s.


(** Decimal digits. *)
Fixpoint uint_units (d : Decimal.uint) : JsString :=
  match d with
  | Decimal.Nil => []
  | Decimal.D0 d => 48%N :: uint_units d
  | Decimal.D1 d => 49%N :: uint_units d
  | Decimal.D2 d => 50%N :: uint_units d
  | Decimal.D3 d => 51%N :: uint_units d
  | Decimal.D4 d => 52%N :: uint_units d
  | Decimal.D5 d => 53%N :: uint_units d
  | Decimal.D6 d => 54%N :: uint_units d
  | Decimal.D7 d => 55%N :: uint_units d
  | Decimal.D8 d => 56%N :: uint_units d
  | Decimal.D9 d => 57%N :: uint_units d
  end.

(** [String(n)] for a non-negative integer such as an array length. *)
Definition nat_to_string (n : nat) : JsString := uint_units (Nat.to_uint n).

(** [String(n).padStart(width, '0')] for a non-negative integer. *)
Definition pad (width : nat) (n : Z) : JsString :=
  let digits := uint_units (N.to_uint (Z.to_N n)) in
  replicate (width - length digits)%nat 48%N ++ digits.

(** A [Date] is its time value: milliseconds since the epoch, UTC. *)
Definition Date : Type := Z.

Definition msPerDay : Z := 86400000.

(** Year, month and day of a day number counted from 1970-01-01, in the
    proleptic Gregorian calendar. *)
Definition civil_from_days (days : Z) : Z * Z * Z :=
  let z := days + 719468 in
  let era := z / 146097 in
  let doe := z - era * 146097 in
  let yoe := (doe - doe / 1460 + doe / 36524 - doe / 146096) / 365 in
  let doy := doe - (365 * yoe + yoe / 4 - yoe / 100) in
  let mp := (5 * doy + 2) / 153 in
  let d := doy - (153 * mp + 2) / 5 + 1 in
  let m := if mp <? 10 then mp + 3 else mp - 9 in
  let y := yoe + era * 400 + (if m <=? 2 then 1 else 0) in
  (y, m, d).

(** [Date.prototype.toISOString]: [YYYY-MM-DDTHH:mm:ss.sssZ], with a signed
    six-digit year outside 0..9999. *)
Definition toISOString (t : Date) : JsString :=
  let '(y, m, d) := civil_from_days (t / msPerDay) in
  let ms := t mod msPerDay in
  let year :=
    if (0 <=? y) && (y <=? 9999) then pad 4 y
    else (if y <? 0 then js "-" else js "+") ++ pad 6 (Z.abs y) in
  cat [ year; js "-"; pad 2 m; js "-"; pad 2 d; js "T";
        pad 2 (ms / 3600000); js ":"; pad 2 (ms / 60000 mod 60); js ":";
        pad 2 (ms / 1000 mod 60); js "."; pad 3 (ms mod 1000); js "Z" ].

End Js.
Import Js.

(* ====================================================================== *)
(** ** Types of the integration *)

(** Treasury action types that SOLPRISM can wrap. *)
Inductive TreasuryActionType :=
| rebalance
| transfer
| allocation
| fee_collection
| yield_deployment
| payment
| swap
| emergency_withdrawal.

(** Risk level assessed by the agent before executing. *)
Inductive RiskLevel := low | medium | high | critical.

(** The string a [TreasuryActionType] is at run time. *)
Definition action_name (a : TreasuryActionType) : JsString :=
  match a with
  | rebalance => js "rebalance"
  | transfer => js "transfer"
  | allocation => js "allocation"
  | fee_collection => js "fee_collection"
  | yield_deployment => js "yield_deployment"
  | payment => js "payment"
  | swap => js "swap"
  | emergency_withdrawal => js "emergency_withdrawal"
  end.

(** The string a [RiskLevel] is at run time. *)
Definition level_name (l : RiskLevel) : JsString :=
  match l with
  | low => js "low"
  | medium => js "medium"
  | high => js "high"
  | critical => js "critical"
  end.

Record Risk := {
  level : RiskLevel;
  factors : list JsString;
}.

Record PortfolioContext := {
  totalValueUSD : JsNumber;
  positions : gmap JsString JsNumber;
}.

(** The reasoning an agent commits before a treasury action. An optional
    property that is absent is [None]. *)
Record TreasuryReasoning := {
  action : TreasuryActionType;
  rationale : JsString;
  risk : Risk;
  expectedOutcome : JsString;
  portfolioContext : option PortfolioContext;
  constraints : option (list JsString);
}.

(** Values of the [parameters] object of a trace. *)
Inductive ParamValue :=
| PString (s : JsString)
| PStrings (xs : list JsString)
| PNumber (n : JsNumber)
| PPositions (m : gmap JsString JsNumber).

(** An object literal used as a mapping; its property names are identifiers of
    the source text. *)
Abbreviation Params := (gmap string ParamValue) (only parsing).

Record TraceAction := {
  type : TreasuryActionType;
  description : JsString;
  parameters : Params;
}.

Record TraceDecision := {
  confidence : JsNumber;
  reasoning_text : JsString;
  decision_expectedOutcome : JsString;
}.

(** [ReasoningTrace] of [@solprism/sdk], with the two sub-objects this
    integration fills in. *)
Record ReasoningTrace := {
  trace_action : TraceAction;
  trace_decision : TraceDecision;
}.

(** Modelled from the spec: [createReasoningTrace] belongs to [@solprism/sdk]
    and is not part of the sources; the trace it returns is the object with
    the [action] and [decision] sub-objects it is given. *)
Definition createReasoningTrace (input : ReasoningTrace) : ReasoningTrace :=
  input.

(** [PublicKey] and [Keypair] of [@solana/web3.js]: opaque byte strings. *)
Record PublicKey := { key_bytes : list N }.

Record Keypair := {
  publicKey : PublicKey;
  secretKey : list N;
}.

(** [CommitResult] of the SDK: tx signature, commitment address, hash. *)
Record CommitResult := {
  commit_signature : JsString;
  commitmentAddress : JsString;
  commitmentHash : JsString;
}.

(** [RevealResult] of the SDK: tx signature, reasoning URI. *)
Record RevealResult := {
  reveal_signature : JsString;
  reasoningUri : JsString;
}.

Record Timestamps := {
  committed : Date;
  executed : Date;
  revealed : Date;
}.

(** JavaScript values the integration only passes along (TypeScript's
    [unknown]): what an action returns, what is thrown, what the client
    lists. [JsError] is an [Error] object with its message. *)
Inductive JsValue :=
| JsUndefined
| JsNull
| JsBoolean (b : bool)
| JsNum (n : JsNumber)
| JsStr (s : JsString)
| JsArray (xs : list JsValue)
| JsObject (props : list (string * JsValue))
| JsError (message : JsString).

(** Result of a SOLPRISM-wrapped treasury operation. *)
Record AuditedActionResult := {
  reasoning : TreasuryReasoning;
  commit : CommitResult;
  reveal : RevealResult;
  actionResult : JsValue;
  explorerUrl : JsString;
  timestamps : Timestamps;
}.

(** Configuration for the SOLPRISM integration. *)
Record SolprismIntegrationConfig := {
  rpcUrl : option JsString;
  programId : option JsString;
  agentName : JsString;
  reasoningStorageUri : option JsString;
  autoRegister : option bool;
}.

(** Result of [verifyReasoning] of the SDK. *)
Record VerifyResult := {
  valid : bool;
  message : JsString;
}.

Record Verification := {
  verification_valid : bool;
  verification_message : JsString;
  verification_explorerUrl : JsString;
}.

(* ====================================================================== *)
(** ** Constants *)

Definition SOLPRISM_PROGRAM_ID : JsString :=
  js "CZcvoryaQNrtZ3qb3gC1h9opcYpzEP1D9Mu1RVwFQeBu".
Definition SOLPRISM_EXPLORER : JsString := js "https://www.solprism.app".
Definition DEFAULT_RPC : JsString := js "https://api.devnet.solana.com".

(** Map risk levels to confidence scores (0-100). *)
Definition RISK_TO_CONFIDENCE (l : RiskLevel) : JsNumber :=
  match l with
  | low => 90%float
  | medium => 70%float
  | high => 45%float
  | critical => 20%float
  end.

(* ====================================================================== *)
(** ** Helpers *)

(** [{ ...base, ...(extra) }] where [extra] is [undefined] or an object: the
    properties of [extra] are added, overriding equal names. *)
Definition spread (extra : option Params) (base : Params) : Params :=
  match extra with
  | Some e => e ∪ base
  | None => base
  end.

(** Convert TreasuryReasoning into a SOLPRISM ReasoningTrace. *)
Definition toReasoningTrace (reasoning : TreasuryReasoning) : ReasoningTrace :=
  createReasoningTrace {|
    trace_action := {|
      type := action reasoning;
      description := rationale reasoning;
      parameters :=
        spread ((fun c => {[ "constraints" := PStrings c ]})
                  <$> constraints reasoning)
       (spread ((fun p => <[ "portfolio_value_usd" := PNumber (totalValueUSD p) ]>
                          {[ "positions" := PPositions (positions p) ]})
                  <$> portfolioContext reasoning)
       (<[ "risk_level" := PString (level_name (level (risk reasoning))) ]>
        {[ "risk_factors" := PStrings (factors (risk reasoning)) ]}));
    |};
    trace_decision := {|
      confidence := RISK_TO_CONFIDENCE (level (risk reasoning));
      reasoning_text := rationale reasoning;
      decision_expectedOutcome := expectedOutcome reasoning;
    |};
  |}.

(** Build a SOLPRISM explorer URL for a commitment address. *)
Definition buildExplorerUrl (commitmentAddress : JsString) : JsString :=
  cat [SOLPRISM_EXPLORER; js "/commitment/"; commitmentAddress].

(* ====================================================================== *)
(** ** The outside world *)

(** What a call settles to: the resolved value, or the thrown value. *)
Inductive Outcome (A : Type) :=
| Resolved (a : A)
| Rejected (e : JsValue).
Arguments Resolved {A} a.
Arguments Rejected {A} e.

(** Interactions with the outside world, in the order they happen. *)
Inductive Event :=
| NewDate
| ConsoleLog (line : JsString)
| ConsoleError (line : JsString)
| IsAgentRegistered (key : PublicKey)
| RegisterAgent (wallet : Keypair) (name : JsString)
| CommitReasoning (wallet : Keypair) (trace : ReasoningTrace)
| RevealReasoning (wallet : Keypair) (commitmentAddress uri : JsString)
| VerifyReasoning (commitmentAddress : JsString) (trace : ReasoningTrace)
| GetAccountability (key : PublicKey)
| GetAgentCommitments (key : PublicKey) (limit : JsNumber)
| RunAction.

Abbreviation History := (list Event) (only parsing).

(** The caller's action, [() => Promise<T>]: it settles to a value or throws,
    possibly depending on everything that happened before. It runs outside
    the integration and does not reach its private fields. *)
Abbreviation Action := (list Event → Outcome JsValue) (only parsing).

(** The wall clock and the [SolprismClient] of the SDK (section 6 of the
    specification): each answer may depend on the history so far. *)
Record Env := {
  now : History → Date;
  isAgentRegistered : History → PublicKey → Outcome bool;
  registerAgent : History → Keypair → JsString → Outcome unit;
  commitReasoning : History → Keypair → ReasoningTrace → Outcome CommitResult;
  revealReasoning :
    History → Keypair → JsString → JsString → Outcome RevealResult;
  verifyReasoning :
    History → JsString → ReasoningTrace → Outcome VerifyResult;
  getAccountability : History → PublicKey → Outcome (option JsNumber);
  getAgentCommitments : History → PublicKey → JsNumber → Outcome JsValue;
}.

(** The calls made on the SOLPRISM client. *)
Definition is_client_call (e : Event) : bool :=
  match e with
  | IsAgentRegistered _ | RegisterAgent _ _ | CommitReasoning _ _
  | RevealReasoning _ _ _ | VerifyReasoning _ _ | GetAccountability _
  | GetAgentCommitments _ _ => true
  | NewDate | ConsoleLog _ | ConsoleError _ | RunAction => false
  end.

Definition client_calls (h : History) : History :=
  List.filter is_client_call h.

(** The arguments of the reveal calls of a history. *)
Definition reveal_calls (h : History) : list (Keypair * JsString * JsString) :=
  omap (fun e => match e with
                 | RevealReasoning w a u => Some (w, a, u)
                 | _ => None
                 end) h.

(** How often the caller's action was invoked. *)
Definition action_runs (h : History) : nat :=
  length (List.filter (fun e => match e with RunAction => true | _ => false end) h).

(* ====================================================================== *)
(** ** Object store and state *)

(** A location of the object store. *)
Abbreviation loc := nat (only parsing).

(** The objects the program shares by reference: arrays of audit records
    (the elements are references) and the audit records themselves. *)
Inductive Obj :=
| ObjArray (elems : list loc)
| ObjRecord (record : AuditedActionResult).

(** The fields of a [SolprismTreasury] instance; the client is the
    environment. *)
Record SolprismTreasury := {
  config : SolprismIntegrationConfig;
  wallet : option Keypair;
  registered : bool;
  actionLog : loc;
}.

Record State := {
  this : SolprismTreasury;
  store : list Obj;
  history : list Event;
}.

Definition set_this (f : SolprismTreasury → SolprismTreasury) (s : State) : State :=
  {| this := f (this s); store := store s; history := history s |}.

Definition set_store (f : list Obj → list Obj) (s : State) : State :=
  {| this := this s; store := f (store s); history := history s |}.

Definition set_history (f : list Event → list Event) (s : State) : State :=
  {| this := this s; store := store s; history := f (history s) |}.

Definition array_at (st : list Obj) (a : loc) : option (list loc) :=
  match st !! a with
  | Some (ObjArray elems) => Some elems
  | _ => None
  end.

Definition record_at (st : list Obj) (r : loc) : option AuditedActionResult :=
  match st !! r with
  | Some (ObjRecord rec) => Some rec
  | _ => None
  end.

(** The records an array of the store holds, in order. *)
Definition records_of (st : list Obj) (a : loc) : option (list AuditedActionResult) :=
  elems ← array_at st a; mapM (record_at st) elems.

(** The session ledger: the references in [this.actionLog], and the records
    they point to. *)
Definition ledger_refs (s : State) : option (list loc) :=
  array_at (store s) (actionLog (this s)).

Definition ledger (s : State) : option (list AuditedActionResult) :=
  records_of (store s) (actionLog (this s)).

(** References do not dangle: [this.actionLog] is an array and its elements
    are audit records. *)
Definition wf (s : State) : Prop :=
  ∃ elems, array_at (store s) (actionLog (this s)) = Some elems
           ∧ Forall (fun r => is_Some (record_at (store s) r)) elems.

(* ====================================================================== *)
(** ** Computations *)

Definition M (A : Type) : Type := State → Outcome A * State.

Definition ret {A} (a : A) : M A := fun s => (Resolved a, s).

Definition bind {A B} (m : M A) (k : A → M B) : M B :=
  fun s => match m s with
           | (Resolved a, s') => k a s'
           | (Rejected e, s') => (Rejected e, s')
           end.

Definition throw {A} (e : JsValue) : M A := fun s => (Rejected e, s).

(** [try { body } catch (error) { handler }] *)
Definition try_catch {A} (body : M A) (handler : JsValue → M A) : M A :=
  fun s => match body s with
           | (Resolved a, s') => (Resolved a, s')
           | (Rejected e, s') => handler e s'
           end.

Notation "'let!' x ':=' m 'in' k" := (bind m (fun x => k))
  (at level 10, x pattern, m at level 100, k at level 200).
Notation "'do!' m 'in' k" := (bind m (fun _ => k))
  (at level 10, m at level 100, k at level 200).

(** An interaction with the world: the answer is decided on the history so
    far, and the interaction is appended to it. *)
Definition interact {A} (e : Event) (answer : History → Outcome A) : M A :=
  fun s => (answer (history s), set_history (fun h => h ++ [e]) s).

(** Reading a property of something that is not an object of the expected
    kind; it does not happen in well-formed states. *)
Definition TypeError : JsValue := JsError (js "TypeError").

Definition get_this : M SolprismTreasury := fun s => (Resolved (this s), s).

Definition update_this (f : SolprismTreasury → SolprismTreasury) : M unit :=
  fun s => (Resolved tt, set_this f s).

(** A new object in the store. *)
Definition alloc (o : Obj) : M loc :=
  fun s => (Resolved (length (store s)), set_store (fun st => st ++ [o]) s).

Definition read_array (a : loc) : M (list loc) :=
  fun s => match array_at (store s) a with
           | Some elems => (Resolved elems, s)
           | None => (Rejected TypeError, s)
           end.

Definition read_record (r : loc) : M AuditedActionResult :=
  fun s => match record_at (store s) r with
           | Some rec => (Resolved rec, s)
           | None => (Rejected TypeError, s)
           end.

(** [array.push(x)] *)
Definition array_push (a : loc) (x : loc) : M unit :=
  let! elems := read_array a in
  fun s => (Resolved tt, set_store (fun st => <[a := ObjArray (elems ++ [x])]> st) s).

Section Integration.

Variable env : Env.

(** [new Date()] *)
Definition newDate : M Date :=
  interact NewDate (fun h => Resolved (now env h)).

Definition console_log (line : JsString) : M unit :=
  interact (ConsoleLog line) (fun _ => Resolved tt).

Definition console_error (line : JsString) : M unit :=
  interact (ConsoleError line) (fun _ => Resolved tt).

Definition client_isAgentRegistered (key : PublicKey) : M bool :=
  interact (IsAgentRegistered key) (fun h => isAgentRegistered env h key).

Definition client_registerAgent (w : Keypair) (name : JsString) : M unit :=
  interact (RegisterAgent w name) (fun h => registerAgent env h w name).

Definition client_commitReasoning (w : Keypair) (trace : ReasoningTrace) : M CommitResult :=
  interact (CommitReasoning w trace) (fun h => commitReasoning env h w trace).

Definition client_revealReasoning (w : Keypair) (address uri : JsString) : M RevealResult :=
  interact (RevealReasoning w address uri)
           (fun h => revealReasoning env h w address uri).

Definition client_verifyReasoning (address : JsString) (trace : ReasoningTrace) : M VerifyResult :=
  interact (VerifyReasoning address trace)
           (fun h => verifyReasoning env h address trace).

Definition client_getAccountability (key : PublicKey) : M (option JsNumber) :=
  interact (GetAccountability key) (fun h => getAccountability env h key).

Definition client_getAgentCommitments (key : PublicKey) (limit : JsNumber) : M JsValue :=
  interact (GetAgentCommitments key limit)
           (fun h => getAgentCommitments env h key limit).

(** [await action()] *)
Definition run (action : Action) : M JsValue := interact RunAction action.


(* ---------------------------------------------------------------------- *)
(** *** The class [SolprismTreasury] *)

(** [if (x)] on an optional boolean and on an optional string: [undefined],
    [false] and the empty string are falsy. *)
Definition truthy_bool (b : option bool) : bool := default false b.

Definition truthy_string (x : option JsString) : option JsString :=
  match x with
  | Some ((_ :: _) as str) => Some str
  | _ => None
  end.

(** The configuration the constructor stores:
    [{ rpcUrl: DEFAULT_RPC, programId: SOLPRISM_PROGRAM_ID,
       autoRegister: true, ...config }]. *)
Definition with_defaults (c : SolprismIntegrationConfig) : SolprismIntegrationConfig := {|
  rpcUrl := Some (default DEFAULT_RPC (rpcUrl c));
  programId := Some (default SOLPRISM_PROGRAM_ID (programId c));
  agentName := agentName c;
  reasoningStorageUri := reasoningStorageUri c;
  autoRegister := Some (default true (autoRegister c));
|}.

(** [new SolprismTreasury(config)]: no wallet, not registered, and a new
    empty [actionLog]. Creating the connection and the client makes no
    call; an [rpcUrl] that [Connection] refuses is outside the model. *)
Definition constructor (c : SolprismIntegrationConfig) : State := {|
  this := {| config := with_defaults c; wallet := None; registered := false;
             actionLog := 0%nat |};
  store := [ObjArray []];
  history := [];
|}.

(** Initialize the integration with a wallet keypair. Optionally registers
    the agent on SOLPRISM if not already registered. *)
Definition initialize (w : Keypair) : M unit :=
  do! update_this (fun t => {| config := config t; wallet := Some w;
                               registered := registered t;
                               actionLog := actionLog t |}) in
  let! t := get_this in
  if truthy_bool (autoRegister (config t)) then
    let! isRegistered := client_isAgentRegistered (publicKey w) in
    do! (if negb isRegistered then
           do! console_log (cat [js "🔐 Registering agent "; [34%N];
                                 agentName (config t); [34%N];
                                 js " on SOLPRISM..."]) in
           do! client_registerAgent w (agentName (config t)) in
           console_log (js "✅ Agent registered on SOLPRISM")
         else ret tt) in
    update_this (fun t => {| config := config t; wallet := wallet t;
                             registered := true; actionLog := actionLog t |})
  else ret tt.

(** Check if the integration is ready to use. *)
Definition isReady (s : State) : bool :=
  bool_decide (is_Some (wallet (this s))) && registered (this s).

Definition NotInitialized : JsValue :=
  JsError (js "SolprismTreasury not initialized. Call initialize(wallet) first.").

Definition ensureReady : M unit :=
  let! t := get_this in
  match wallet t with
  | None => throw NotInitialized
  | Some _ => ret tt
  end.

(** [this.wallet!]: the assertion is erased at run time. After [ensureReady]
    the wallet is set; reading a property of [null] would throw. *)
Definition wallet_asserted : M Keypair :=
  let! t := get_this in
  match wallet t with
  | Some w => ret w
  | None => throw TypeError
  end.

(** Build a URI for the full reasoning data; [t] is [this]. *)
Definition buildReasoningUri (t : SolprismTreasury)
    (reasoning : TreasuryReasoning) (commit : CommitResult) : JsString :=
  match truthy_string (reasoningStorageUri (config t)) with
  | Some base => cat [base; js "/"; commitmentHash commit]
  | None =>
    (* Default: use SOLPRISM explorer as the canonical reference *)
    cat [SOLPRISM_EXPLORER; js "/commitment/"; commitmentAddress commit]
  end.

Definition set_committed (d : Date) (t : Timestamps) : Timestamps :=
  {| committed := d; executed := executed t; revealed := revealed t |}.

Definition set_executed (d : Date) (t : Timestamps) : Timestamps :=
  {| committed := committed t; executed := d; revealed := revealed t |}.

Definition set_revealed (d : Date) (t : Timestamps) : Timestamps :=
  {| committed := committed t; executed := executed t; revealed := d |}.

(** Execute a treasury action with full SOLPRISM audit trail. The result is
    the reference of the new audit record, which is also the reference pushed
    on [this.actionLog]. *)
Definition executeAudited (reasoning : TreasuryReasoning) (action_fn : Action) : M loc :=
  do! ensureReady in
  let trace := toReasoningTrace reasoning in
  let! committed0 := newDate in
  let! executed0 := newDate in
  let! revealed0 := newDate in
  let timestamps := {| committed := committed0; executed := executed0;
                       revealed := revealed0 |} in
  (* Step 1: Commit reasoning hash onchain *)
  do! console_log (cat [js "🔒 Committing reasoning for ";
                        action_name (action reasoning); js "..."]) in
  let! w := wallet_asserted in
  let! commit := client_commitReasoning w trace in
  let! d := newDate in
  let timestamps := set_committed d timestamps in
  do! console_log (cat [js "   ✅ Committed: ";
                        slice0 16 (commitmentHash commit); js "..."]) in
  (* Step 2: Execute the treasury action *)
  do! console_log (cat [js "⚡ Executing ";
                        action_name (action reasoning); js "..."]) in
  let! (actionResult, timestamps) :=
    try_catch
      (let! result := run action_fn in
       let! d := newDate in
       do! console_log (js "   ✅ Action completed") in
       ret (result, set_executed d timestamps))
      (fun error =>
       let! d := newDate in
       do! console_error
             (js "   ❌ Action failed — commitment remains onchain for audit") in
       throw error) in
  (* Step 3: Reveal reasoning onchain *)
  let! t := get_this in
  let uri := buildReasoningUri t reasoning commit in
  do! console_log (js "📖 Revealing reasoning onchain...") in
  let! w := wallet_asserted in
  let! reveal :=
    client_revealReasoning w (commitmentAddress commit) uri in
  let! d := newDate in
  let timestamps := set_revealed d timestamps in
  do! console_log (cat [js "   ✅ Revealed: "; reasoningUri reveal]) in
  let! result := alloc (ObjRecord {|
    reasoning := reasoning;
    commit := commit;
    reveal := reveal;
    actionResult := actionResult;
    explorerUrl := buildExplorerUrl (commitmentAddress commit);
    timestamps := timestamps;
  |}) in
  let! t := get_this in
  do! array_push (actionLog t) result in
  ret result.

(* ---------------------------------------------------------------------- *)
(** *** Convenience methods *)

(** Wrap a rebalance operation with auditable reasoning. *)
Definition auditedRebalance (rationale : JsString) (riskLevel : RiskLevel)
    (riskFactors : list JsString) (expectedOutcome : JsString)
    (portfolioContext : PortfolioContext) (rebalanceFn : Action) : M loc :=
  executeAudited
    {| action := rebalance; rationale := rationale;
       risk := {| level := riskLevel; factors := riskFactors |};
       expectedOutcome := expectedOutcome;
       portfolioContext := Some portfolioContext; constraints := None |}
    rebalanceFn.

(** Wrap a transfer operation with auditable reasoning. *)
Definition auditedTransfer (rationale : JsString) (riskLevel : RiskLevel)
    (riskFactors : list JsString) (expectedOutcome : JsString)
    (transferFn : Action) : M loc :=
  executeAudited
    {| action := transfer; rationale := rationale;
       risk := {| level := riskLevel; factors := riskFactors |};
       expectedOutcome := expectedOutcome;
       portfolioContext := None; constraints := None |}
    transferFn.

(** Wrap a yield deployment with auditable reasoning. *)
Definition auditedYieldDeployment (rationale : JsString) (riskLevel : RiskLevel)
    (riskFactors : list JsString) (expectedOutcome : JsString)
    (deployFn : Action) : M loc :=
  executeAudited
    {| action := yield_deployment; rationale := rationale;
       risk := {| level := riskLevel; factors := riskFactors |};
       expectedOutcome := expectedOutcome;
       portfolioContext := None; constraints := None |}
    deployFn.

(** Wrap a fee collection with auditable reasoning. *)
Definition auditedFeeCollection (rationale expectedOutcome : JsString)
    (collectFn : Action) : M loc :=
  executeAudited
    {| action := fee_collection; rationale := rationale;
       risk := {| level := low; factors := [js "Routine fee collection"] |};
       expectedOutcome := expectedOutcome;
       portfolioContext := None; constraints := None |}
    collectFn.

(** Wrap a payment with auditable reasoning. *)
Definition auditedPayment (rationale : JsString) (riskLevel : RiskLevel)
    (riskFactors : list JsString) (expectedOutcome : JsString)
    (paymentFn : Action) : M loc :=
  executeAudited
    {| action := payment; rationale := rationale;
       risk := {| level := riskLevel; factors := riskFactors |};
       expectedOutcome := expectedOutcome;
       portfolioContext := None; constraints := None |}
    paymentFn.

(* ---------------------------------------------------------------------- *)
(** *** Verification and audit *)

(** Verify that a past action's reasoning matches what was committed
    onchain. *)
Definition verifyAction (commitmentAddress : JsString) (reasoning : TreasuryReasoning) : M Verification :=
  let trace := toReasoningTrace reasoning in
  let! result := client_verifyReasoning commitmentAddress trace in
  ret {| verification_valid := valid result;
         verification_message := message result;
         verification_explorerUrl := buildExplorerUrl commitmentAddress |}.

(** Get the agent's accountability score from SOLPRISM. *)
Definition getAccountabilityScore : M (option JsNumber) :=
  do! ensureReady in
  let! w := wallet_asserted in
  client_getAccountability (publicKey w).

(** Get all past commitments for this agent from the chain; [limit = 50]
    when the argument is left out. *)
Definition getAuditHistory (limit : option JsNumber) : M JsValue :=
  let limit := default 50%float limit in
  do! ensureReady in
  let! w := wallet_asserted in
  client_getAgentCommitments (publicKey w) limit.

(** Get the local action log: [[...this.actionLog]], a new array with the
    same elements. *)
Definition getSessionLog : M loc :=
  let! t := get_this in
  let! elems := read_array (actionLog t) in
  alloc (ObjArray elems).

(** [lines.push(line)] *)
Definition push (lines : list JsString) (line : JsString) : list JsString :=
  lines ++ [line].

Definition rule : JsString := js "═══════════════════════════════════════════════════".

(** The body of the loop of [formatAuditReport]. *)
Definition push_entry (lines : list JsString) (entry : AuditedActionResult) : list JsString :=
  let lines := push lines
    (cat [js "  ┌─ "; toUpperCase (action_name (action (reasoning entry)))]) in
  let lines := push lines
    (cat [js "  │  Rationale: "; rationale (reasoning entry)]) in
  let lines := push lines
    (cat [js "  │  Risk: "; level_name (level (risk (reasoning entry)));
          js " ("; join (js ", ") (factors (risk (reasoning entry))); js ")"]) in
  let lines := push lines
    (cat [js "  │  Expected: "; expectedOutcome (reasoning entry)]) in
  let lines := push lines
    (cat [js "  │  Commitment: "; slice0 16 (commitmentHash (commit entry));
          js "..."]) in
  let lines := push lines (cat [js "  │  Explorer: "; explorerUrl entry]) in
  let lines := push lines
    (cat [js "  └─ Committed "; toISOString (committed (timestamps entry))]) in
  push lines [].

(** [for (const entry of this.actionLog) { ... }] *)
Fixpoint for_entries (elems : list loc) (lines : list JsString) : M (list JsString) :=
  match elems with
  | [] => ret lines
  | r :: rest =>
    let! entry := read_record r in
    for_entries rest (push_entry lines entry)
  end.

(** Format a human-readable audit report for the current session. *)
Definition formatAuditReport : M JsString :=
  let! t := get_this in
  let! elems := read_array (actionLog t) in
  if (length elems =? 0)%nat then
    ret (js "No audited actions in this session.")
  else
    let! first := match elems !! 0%nat with
                  | Some r => read_record r
                  | None => throw TypeError
                  end in
    let lines := [
      rule;
      js "  SOLPRISM Audit Report — Agent Treasury Manager";
      rule;
      [];
      cat [js "  Agent: "; agentName (config t)];
      cat [js "  Actions: "; nat_to_string (length elems)];
      cat [js "  Session: "; toISOString (committed (timestamps first))];
      []
    ] in
    let! lines := for_entries elems lines in
    let lines := push lines rule in
    let lines := push lines (js "  Verify any action: https://www.solprism.app/") in
    let lines := push lines rule in
    ret (join [10%N] lines).

End Integration.

(* ====================================================================== *)
(** ** What a caller can do with a reference *)

(** In-place changes by code that holds a reference. [MutateArray a elems]
    leaves array [a] with the elements [elems]: it covers [a.push(x)],
    [a.pop()], [a[i] = x], [a.length = n], [a.splice(..)], [a.sort(..)].
    [MutateRecord r rec] leaves record [r] equal to [rec]: it covers the
    assignments to its properties. *)
Inductive Mutation :=
| MutateArray (a : loc) (elems : list loc)
| MutateRecord (r : loc) (rec : AuditedActionResult).

Definition mutate (m : Mutation) (s : State) : State :=
  match m with
  | MutateArray a elems =>
    match array_at (store s) a with
    | Some _ => set_store (fun st => <[a := ObjArray elems]> st) s
    | None => s
    end
  | MutateRecord r rec =>
    match record_at (store s) r with
    | Some _ => set_store (fun st => <[r := ObjRecord rec]> st) s
    | None => s
    end
  end.

(** The mutations open to a caller who holds the array [a]: changing [a]
    itself, and changing a record that is an element of [a]. *)
Definition through (st : list Obj) (a : loc) (m : Mutation) : Prop :=
  match m with
  | MutateArray a' _ => a' = a
  | MutateRecord r _ => ∃ elems, array_at st a = Some elems ∧ r ∈ elems
  end.

(* ====================================================================== *)
(** ** Vocabulary of the properties *)

Section Stages.

Variables (s : State) (r : TreasuryReasoning) (w : Keypair).

(** The history at the moment [executeAudited] calls [commitReasoning]. *)
Definition before_commit : list Event :=
  history s ++
  [ NewDate; NewDate; NewDate;
    ConsoleLog (cat [js "🔒 Committing reasoning for ";
                     action_name (action r); js "..."]) ].

(** The history at the moment the caller's action is invoked, after a commit
    that resolved to [commit]. *)
Definition before_action (commit : CommitResult) : list Event :=
  before_commit ++
  [ CommitReasoning w (toReasoningTrace r); NewDate;
    ConsoleLog (cat [js "   ✅ Committed: ";
                     slice0 16 (commitmentHash commit); js "..."]);
    ConsoleLog (cat [js "⚡ Executing ";
                     action_name (action r); js "..."]) ].

(** The history at the moment [revealReasoning] is called, after the action
    resolved. *)
Definition before_reveal (commit : CommitResult) : list Event :=
  before_action commit ++
  [ RunAction; NewDate; ConsoleLog (js "   ✅ Action completed");
    ConsoleLog (js "📖 Revealing reasoning onchain...") ].

(** The history after an action that threw. *)
Definition after_failed_action (commit : CommitResult) : list Event :=
  before_action commit ++
  [ RunAction; NewDate;
    ConsoleError (js "   ❌ Action failed — commitment remains onchain for audit") ].

(** The history after a reveal that resolved to [reveal]. *)
Definition after_reveal (commit : CommitResult) (reveal : RevealResult) : list Event :=
  before_reveal commit ++
  [ RevealReasoning w (commitmentAddress commit)
                    (buildReasoningUri (this s) r commit);
    NewDate;
    ConsoleLog (cat [js "   ✅ Revealed: "; reasoningUri reveal]) ].

(** The audit record of a run in which every step resolved. *)
Definition audit_record (env : Env) (commit : CommitResult)
    (reveal : RevealResult) (result : JsValue) : AuditedActionResult := {|
  reasoning := r;
  commit := commit;
  reveal := reveal;
  actionResult := result;
  explorerUrl := buildExplorerUrl (commitmentAddress commit);
  timestamps := {|
    committed := now env (before_commit ++ [CommitReasoning w (toReasoningTrace r)]);
    executed := now env (before_action commit ++ [RunAction]);
    revealed :=
      now env (before_reveal commit ++
               [RevealReasoning w (commitmentAddress commit)
                                (buildReasoningUri (this s) r commit)]);
  |};
|}.

End Stages.

(** The wall clock never goes back. *)
Definition clock_monotone (env : Env) : Prop :=
  ∀ h h', now env h ≤ now env (h ++ h').

(** The lines of the report for one record. *)
Definition entry_block (entry : AuditedActionResult) : list JsString := [
  js "  ┌─ " ++ toUpperCase (action_name (action (reasoning entry)));
  js "  │  Rationale: " ++ rationale (reasoning entry);
  js "  │  Risk: " ++ level_name (level (risk (reasoning entry))) ++ js " ("
    ++ join (js ", ") (factors (risk (reasoning entry))) ++ js ")";
  js "  │  Expected: " ++ expectedOutcome (reasoning entry);
  js "  │  Commitment: " ++ take 16 (commitmentHash (commit entry)) ++ js "...";
  js "  │  Explorer: " ++ explorerUrl entry;
  js "  └─ Committed " ++ toISOString (committed (timestamps entry));
  []
].

(** The lines before the first block. *)
Definition report_header (name : JsString) (count : nat) (first : AuditedActionResult) : list JsString := [
  rule;
  js "  SOLPRISM Audit Report — Agent Treasury Manager";
  rule;
  [];
  js "  Agent: " ++ name;
  js "  Actions: " ++ nat_to_string count;
  js "  Session: " ++ toISOString (committed (timestamps first));
  []
].

(** The lines after the last block. *)
Definition report_footer : list JsString := [
  rule;
  js "  Verify any action: https://www.solprism.app/";
  rule
].

(** The report as section 4.3 of the specification describes it: the fixed
    sentence for an empty ledger; otherwise the header, one block per record
    in insertion order, and the footer, joined by line feeds. *)
Definition report_text (name : JsString) (recs : list AuditedActionResult) : JsString :=
  match recs with
  | [] => js "No audited actions in this session."
  | first :: _ =>
    join [10%N] (report_header name (length recs) first
                 ++ concat (entry_block <$> recs) ++ report_footer)
  end.

(** [record.explorerUrl = url] *)
Definition set_explorerUrl (url : JsString) (rec : AuditedActionResult) : AuditedActionResult := {|
  reasoning := reasoning rec;
  commit := commit rec;
  reveal := reveal rec;
  actionResult := actionResult rec;
  explorerUrl := url;
  timestamps := timestamps rec;
|}.

(* ====================================================================== *)
(** ** A sample world *)

Module Sample.

Definition agent_wallet : Keypair :=
  {| publicKey := {| key_bytes := [7; 1; 9]%N |}; secretKey := [4; 2]%N |}.

(** A clock that advances by one second with every interaction, and a client
    that accepts every call. The commitment address depends on when the
    commit is made. *)
Definition world : Env := {|
  now h := 1770210000000 + 1000 * Z.of_nat (length h);
  isAgentRegistered _ _ := Resolved false;
  registerAgent _ _ _ := Resolved tt;
  commitReasoning h _ _ := Resolved {|
    commit_signature := js "5UfD";
    commitmentAddress := js "Cmt" ++ nat_to_string (length h);
    commitmentHash := js "a3f8c9d1e2b7a3f8c9d1e2b7";
  |};
  revealReasoning _ _ _ uri :=
    Resolved {| reveal_signature := js "3kQp"; reasoningUri := uri |};
  verifyReasoning _ _ _ :=
    Resolved {| valid := true; message := js "Reasoning matches commitment" |};
  getAccountability _ _ := Resolved (Some 100%float);
  getAgentCommitments _ _ _ := Resolved (JsArray []);
|}.

Definition rpc_down : JsValue := JsError (js "failed to send transaction").



Definition rebalancing : TreasuryReasoning := {|
  action := rebalance;
  rationale := js "SOL allocation drifted to 68%, target is 50%";
  risk := {| level := low;
             factors := [js "Small position adjustment"; js "High liquidity"] |};
  expectedOutcome := js "Portfolio returns to 50/50 SOL/USDC split";
  portfolioContext := Some {|
    totalValueUSD := 15000%float;
    positions := {[ js "SOL" := 0.75%float; js "USDC" := 0.25%float ]};
  |};
  constraints := None;
|}.

Definition paying : TreasuryReasoning := {|
  action := payment;
  rationale := js "Monthly OpenRouter payment";
  risk := {| level := medium; factors := [js "Recurring payment"] |};
  expectedOutcome := js "API access maintained";
  portfolioContext := None;
  constraints := Some [js "max 50 USDC"];
|}.

Definition succeeds : list Event → Outcome JsValue :=
  fun _ => Resolved (JsStr (js "ok")).

Definition insufficient_funds : JsValue := JsError (js "insufficient funds").

Definition fails : list Event → Outcome JsValue :=
  fun _ => Rejected insufficient_funds.

Definition settings (uri : option JsString) (auto : option bool) : SolprismIntegrationConfig := {|
  rpcUrl := None;
  programId := None;
  agentName := js "Skippy Treasury Agent";
  reasoningStorageUri := uri;
  autoRegister := auto;
|}.

(** A new instance, before [initialize]. *)
Definition fresh : State := constructor (settings None None).

(** After [await solprism.initialize(wallet)]. *)
Definition ready : State := snd (initialize world agent_wallet fresh).

(** After [initialize] with [autoRegister: false]. *)
Definition unregistered : State :=
  snd (initialize world agent_wallet (constructor (settings None (Some false)))).

(** After [initialize] with [reasoningStorageUri: 'https://ipfs.io/ipfs']. *)
Definition with_storage : State :=
  snd (initialize world agent_wallet
         (constructor (settings (Some (js "https://ipfs.io/ipfs")) None))).

(** After [initialize] with [reasoningStorageUri: '']. *)
Definition with_empty_storage : State :=
  snd (initialize world agent_wallet (constructor (settings (Some []) None))).

(** After one audited rebalance, and after a payment on top of it. *)
Definition after_one : State :=
  snd (executeAudited world rebalancing succeeds ready).

Definition after_two : State :=
  snd (executeAudited world paying succeeds after_one).

(** What the client answers to the first commit made from [ready]. *)
Definition first_commit : CommitResult := {|
  commit_signature := js "5UfD";
  commitmentAddress := js "Cmt8";
  commitmentHash := js "a3f8c9d1e2b7a3f8c9d1e2b7";
|}.

(** The records of the ledger after the two audited actions. *)
Definition records_after_two : list AuditedActionResult :=
  default [] (ledger after_two).


End Sample.

(* ====================================================================== *)
(** * Sessions of [SolprismTreasury] *)

(** The history at the moment [initialize] calls [registerAgent]. *)
Definition before_register (s : State) (w : Keypair) : list Event :=
  history s ++
  [ IsAgentRegistered (publicKey w);
    ConsoleLog (cat [js "🔐 Registering agent "; [34%N];
                     agentName (config (this s)); [34%N];
                     js " on SOLPRISM..."]) ].

(** A call of a public method of [SolprismTreasury]. *)
Inductive MethodCall :=
| Initialize (w : Keypair)
| ExecuteAudited (r : TreasuryReasoning) (f : list Event → Outcome JsValue)
| VerifyAction (address : JsString) (r : TreasuryReasoning)
| GetAccountabilityScore
| GetAuditHistory (limit : option JsNumber)
| GetSessionLog
| FormatAuditReport.

(** The state after a call, whether it resolved or rejected. *)
Definition perform (env : Env) (c : MethodCall) (s : State) : State :=
  match c with
  | Initialize w => snd (initialize env w s)
  | ExecuteAudited r f => snd (executeAudited env r f s)
  | VerifyAction address r => snd (verifyAction env address r s)
  | GetAccountabilityScore => snd (getAccountabilityScore env s)
  | GetAuditHistory limit => snd (getAuditHistory env limit s)
  | GetSessionLog => snd (getSessionLog s)
  | FormatAuditReport => snd (formatAuditReport s)
  end.

(** Whether a call is an [executeAudited] that resolves in state [s]. *)
Definition audited (env : Env) (c : MethodCall) (s : State) : bool :=
  match c with
  | ExecuteAudited r f =>
    match fst (executeAudited env r f s) with
    | Resolved _ => true
    | Rejected _ => false
    end
  | _ => false
  end.

(** A session: calls made one after the other. *)
Fixpoint perform_all (env : Env) (cs : list MethodCall) (s : State) : State :=
  match cs with
  | [] => s
  | c :: rest => perform_all env rest (perform env c s)
  end.

(** How many [executeAudited] calls of a session resolved. *)
Fixpoint audited_count (env : Env) (cs : list MethodCall) (s : State) : nat :=
  match cs with
  | [] => 0
  | c :: rest =>
    ((if audited env c s then 1 else 0)
     + audited_count env rest (perform env c s))%nat
  end.

(** The commit calls of a history, with their traces. *)
Definition commit_calls (h : list Event) : list (Keypair * ReasoningTrace) :=
  omap (fun e => match e with
                 | CommitReasoning w t => Some (w, t)
                 | _ => None
                 end) h.

(* ====================================================================== *)
(** * The treasury, the fee collector and the command line *)

(* ====================================================================== *)
(** ** Types of [types.ts] *)

Inductive ChainName := chain_base | chain_solana | chain_ethereum.

(** The string a chain name is at run time. *)
Definition chain_name (c : ChainName) : JsString :=
  match c with
  | chain_base => js "base"
  | chain_solana => js "solana"
  | chain_ethereum => js "ethereum"
  end.

(** A [bigint] is an integer. *)
Record TreasuryBalance := {
  chain : ChainName;
  token : JsString;
  amount : Z;
  usdValue : JsNumber;
  lastUpdated : Date;
}.

(** [chain] of a fee source is ['base' | 'solana']. *)
Record FeeSource := {
  protocol : JsString;
  fee_chain : ChainName;
  contract : JsString;
  tokenAddress : JsString;
  amountAvailable : Z;
}.

Record RunwayMetrics := {
  totalBalanceUSD : JsNumber;
  monthlyBurnRateUSD : JsNumber;
  daysRemaining : JsNumber;
  alertThreshold : JsNumber;
  lastCalculated : Date;
}.

Inductive Frequency := daily | weekly | monthly.

Record PaymentConfig := {
  provider : JsString;
  frequency : Frequency;
  amountUSD : JsNumber;
  autoPayEnabled : bool;
}.

Record Wallets := {
  base : JsString;
  solana : JsString;
}.

Record MorphoTarget := { marketId : JsString; morpho_targetAPY : JsNumber }.
Record KaminoTarget := { vaultAddress : JsString; kamino_targetAPY : JsNumber }.

Record YieldTargets := {
  morpho : option MorphoTarget;
  kamino : option KaminoTarget;
}.

Record RunwayAlert := {
  thresholdDays : JsNumber;
  notifyEmail : option JsString;
  notifyWebhook : option JsString;
}.

Record TreasuryConfig := {
  wallets : Wallets;
  feeSources : list FeeSource;
  yieldTargets : YieldTargets;
  runwayAlert : RunwayAlert;
  payments : list PaymentConfig;
}.

(* ====================================================================== *)
(** ** The chains and the terminal *)

(** What [treasury.ts], [collectors/clawnch.ts] and [cli.ts] do to the
    outside world, in the order it happens. *)
Inductive ChainEvent :=
| ReadClock
| Print (line : JsString)
| PrintError (line : JsString) (error : option JsValue)
| BaseGetBalance (address : JsString)
| SolanaGetBalance (key : PublicKey)
| ReadFeesToClaim (feeOwner tokenAddress : JsString)
| WriteClaim (feeOwner tokenAddress : JsString)
| WaitForReceipt (hash : JsString).

(** The two RPC clients, the FeeLocker contract behind them, the wall clock,
    and the library and built-in functions whose text is not part of the
    repository ([PublicKey] and [privateKeyToAccount] may throw; [formatEther]
    of viem, [Number.prototype.toFixed], [String(number)], [parseInt] and
    [parseFloat] are functions of their arguments). An answer of a client may
    depend on the history so far. *)
Record ChainEnv := {
  clock : list ChainEvent → Date;
  baseGetBalance : list ChainEvent → JsString → Outcome Z;
  solanaGetBalance : list ChainEvent → PublicKey → Outcome JsNumber;
  feesToClaim : list ChainEvent → JsString → JsString → Outcome Z;
  claim : list ChainEvent → JsString → JsString → Outcome JsString;
  waitForTransactionReceipt : list ChainEvent → JsString → Outcome unit;
  newPublicKey : JsString → Outcome PublicKey;
  privateKeyToAccount : JsString → Outcome JsString;
  formatEther : Z → JsString;
  toFixed : JsNumber → nat → JsString;
  numberToString : JsNumber → JsString;
  parseInt : JsString → JsNumber;
  parseFloat : JsString → JsNumber;
}.

(** Computations over the history of chain events. *)
Definition W (A : Type) : Type := list ChainEvent → Outcome A * list ChainEvent.

Definition wret {A} (a : A) : W A := fun h => (Resolved a, h).

Definition wbind {A B} (m : W A) (k : A → W B) : W B :=
  fun h => match m h with
           | (Resolved a, h') => k a h'
           | (Rejected e, h') => (Rejected e, h')
           end.

Definition wthrow {A} (e : JsValue) : W A := fun h => (Rejected e, h).

(** [try { body } catch (error) { handler }] *)
Definition wtry {A} (body : W A) (handler : JsValue → W A) : W A :=
  fun h => match body h with
           | (Resolved a, h') => (Resolved a, h')
           | (Rejected e, h') => handler e h'
           end.

Notation "'let*' x ':=' m 'in' k" := (wbind m (fun x => k))
  (at level 10, x pattern, m at level 100, k at level 200).
Notation "'do*' m 'in' k" := (wbind m (fun _ => k))
  (at level 10, m at level 100, k at level 200).

(** A call on the outside world. *)
Definition wcall {A} (e : ChainEvent) (answer : list ChainEvent → Outcome A) : W A :=
  fun h => (answer h, h ++ [e]).

(** A function that may throw and touches nothing. *)
Definition wpure {A} (o : Outcome A) : W A := fun h => (o, h).

(** [String(n)] for a [bigint]. *)
Definition bigint_to_string (z : Z) : JsString :=
  if z <? 0 then js "-" ++ uint_units (N.to_uint (Z.to_N (- z)))
  else uint_units (N.to_uint (Z.to_N z)).

Definition RangeError : JsValue := JsError (js "RangeError").

(** [BigInt(x)] for a number [x]: the integer [x] is, and a [RangeError] when
    [x] is not an integer (so also for NaN and the infinities). *)
Definition BigInt (x : JsNumber) : Outcome Z :=
  match Prim2SF x with
  | S754_zero _ => Resolved 0
  | S754_finite negative m e =>
    let sign := if negative then -1 else 1 in
    if 0 <=? e then Resolved (sign * Z.pos m * 2 ^ e)
    else if Z.pos m mod 2 ^ (- e) =? 0
         then Resolved (sign * (Z.pos m / 2 ^ (- e)))
         else Rejected RangeError
  | S754_infinity _ | S754_nan => Rejected RangeError
  end.

Section Chains.

Variable env : ChainEnv.

(** [new Date()] *)
Definition new_date : W Date := wcall ReadClock (fun h => Resolved (clock env h)).

Definition print (line : JsString) : W unit :=
  wcall (Print line) (fun _ => Resolved tt).

Definition print_error (line : JsString) (error : option JsValue) : W unit :=
  wcall (PrintError line error) (fun _ => Resolved tt).

(* ---------------------------------------------------------------------- *)
(** *** [treasury.ts]: the class [TreasuryManager]

    The only field the methods read is [config]; the two clients are the
    environment. The constructor makes no call. *)

(** Get ETH balance on Base *)
Definition getBaseETHBalance (config : TreasuryConfig) : W TreasuryBalance :=
  let* balance := wcall (BaseGetBalance (base (wallets config)))
                        (fun h => baseGetBalance env h (base (wallets config))) in
  let* date := new_date in
  wret {| chain := chain_base; token := js "ETH"; amount := balance;
          usdValue := 0%float; lastUpdated := date |}.

(** Get SOL balance on Solana *)
Definition getSolanaSOLBalance (config : TreasuryConfig) : W TreasuryBalance :=
  let* pubkey := wpure (newPublicKey env (solana (wallets config))) in
  let* balance := wcall (SolanaGetBalance pubkey)
                        (fun h => solanaGetBalance env h pubkey) in
  let* lamports := wpure (BigInt balance) in
  let* date := new_date in
  wret {| chain := chain_solana; token := js "SOL"; amount := lamports;
          usdValue := 0%float; lastUpdated := date |}.

(** Get all treasury balances *)
Definition getAllBalances (config : TreasuryConfig) : W (list TreasuryBalance) :=
  let balances := [] in
  let* balances :=
    wtry (let* baseETH := getBaseETHBalance config in
          wret (balances ++ [baseETH]))
         (fun error =>
          do* print_error (js "Error fetching Base ETH balance:") (Some error) in
          wret balances) in
  let* balances :=
    wtry (let* solanaSOL := getSolanaSOLBalance config in
          wret (balances ++ [solanaSOL]))
         (fun error =>
          do* print_error (js "Error fetching Solana SOL balance:") (Some error) in
          wret balances) in
  wret balances.

(** Calculate runway metrics *)
Definition calculateRunway (config : TreasuryConfig)
    (totalBalanceUSD monthlyBurnRateUSD : JsNumber) : W RunwayMetrics :=
  let daysRemaining :=
    if ((0 <? totalBalanceUSD) && (0 <? monthlyBurnRateUSD))%float
    then (totalBalanceUSD / monthlyBurnRateUSD * 30)%float
    else infinity in
  let* date := new_date in
  wret {| totalBalanceUSD := totalBalanceUSD;
          monthlyBurnRateUSD := monthlyBurnRateUSD;
          daysRemaining := daysRemaining;
          alertThreshold := thresholdDays (runwayAlert config);
          lastCalculated := date |}.

Record Status := {
  balances : list TreasuryBalance;
  runway : RunwayMetrics;
  alerts : list JsString;
}.

(** Get comprehensive treasury status; [monthlyBurnRateUSD = 0] when the
    argument is left out. *)
Definition getStatus (config : TreasuryConfig) (monthlyBurnRateUSD : option JsNumber) : W Status :=
  let monthlyBurnRateUSD := default 0%float monthlyBurnRateUSD in
  let* balances := getAllBalances config in
  (* Calculate total USD value (simplified - would need price oracle) *)
  let totalBalanceUSD :=
    fold_left (fun sum b => (sum + usdValue b)%float) balances 0%float in
  let* runway := calculateRunway config totalBalanceUSD monthlyBurnRateUSD in
  (* Generate alerts *)
  let alerts :=
    if (daysRemaining runway <? thresholdDays (runwayAlert config))%float
    then [cat [js "⚠️  LOW RUNWAY: Only "; toFixed env (daysRemaining runway) 1;
               js " days remaining!"]]
    else [] in
  wret {| balances := balances; runway := runway; alerts := alerts |}.

(** Format balances for display *)
Definition formatBalances (balances : list TreasuryBalance) : JsString :=
  join [10%N]
    ((fun b =>
        let amount :=
          if bool_decide (token b = js "ETH") || bool_decide (token b = js "SOL")
          then formatEther env (amount b)
          else bigint_to_string (amount b) in
        cat [toUpperCase (chain_name (chain b)); js " - "; amount; js " ";
             token b]) <$> balances).

(** Format runway metrics for display *)
Definition formatRunway (runway : RunwayMetrics) : JsString :=
  join [10%N] [
    cat [js "Total Balance: $"; toFixed env (totalBalanceUSD runway) 2];
    cat [js "Monthly Burn: $"; toFixed env (monthlyBurnRateUSD runway) 2];
    cat [js "Days Remaining: ";
         if PrimFloat.eqb (daysRemaining runway) infinity then js "∞"
         else toFixed env (daysRemaining runway) 1];
    cat [js "Alert Threshold: "; numberToString env (alertThreshold runway);
         js " days"]
  ].

(* ---------------------------------------------------------------------- *)
(** *** [collectors/clawnch.ts]: the class [ClawnchFeeCollector] *)

(** Clanker FeeLocker contract on Base *)
Definition FEE_LOCKER_ADDRESS : JsString :=
  js "0xF3622742b1E446D92e45E22923Ef11C2fcD55D68".
Definition WETH_ADDRESS : JsString :=
  js "0x4200000000000000000000000000000000000006".

(** The field the methods read: [this.account.address]. *)
Record ClawnchFeeCollector := { address : JsString }.

(** [new ClawnchFeeCollector(privateKey)]: [privateKeyToAccount] may throw;
    creating the two clients makes no call. *)
Definition newClawnchFeeCollector (privateKey : JsString) : W ClawnchFeeCollector :=
  let* account := wpure (privateKeyToAccount env privateKey) in
  wret {| address := account |}.

Definition read_feesToClaim (feeOwner token : JsString) : W Z :=
  wcall (ReadFeesToClaim feeOwner token) (fun h => feesToClaim env h feeOwner token).

Definition write_claim (feeOwner token : JsString) : W JsString :=
  wcall (WriteClaim feeOwner token) (fun h => claim env h feeOwner token).

Definition wait_receipt (hash : JsString) : W unit :=
  wcall (WaitForReceipt hash) (fun h => waitForTransactionReceipt env h hash).

(** Check WETH fees available to claim *)
Definition checkWETHFees (this : ClawnchFeeCollector) (tokenAddress : option JsString) : W FeeSource :=
  let* wethFees := read_feesToClaim (address this) WETH_ADDRESS in
  wret {| protocol := js "clawnch"; fee_chain := chain_base;
          contract := FEE_LOCKER_ADDRESS; tokenAddress := WETH_ADDRESS;
          amountAvailable := wethFees |}.

(** Check token fees available to claim *)
Definition checkTokenFees (this : ClawnchFeeCollector) (tokenAddress : JsString) : W FeeSource :=
  let* tokenFees := read_feesToClaim (address this) tokenAddress in
  wret {| protocol := js "clawnch"; fee_chain := chain_base;
          contract := FEE_LOCKER_ADDRESS; tokenAddress := tokenAddress;
          amountAvailable := tokenFees |}.

(** Claim WETH fees *)
Definition claimWETHFees (this : ClawnchFeeCollector) : W JsString :=
  do* print (js "Claiming WETH fees from Clawnch FeeLocker...") in
  let* hash := write_claim (address this) WETH_ADDRESS in
  do* print (cat [js "WETH claim tx: https://basescan.org/tx/"; hash]) in
  do* wait_receipt hash in
  do* print (js "WETH fees claimed!") in
  wret hash.

(** Claim token fees *)
Definition claimTokenFees (this : ClawnchFeeCollector) (tokenAddress : JsString) : W JsString :=
  do* print (cat [js "Claiming token fees from Clawnch FeeLocker for ";
                  tokenAddress; js "..."]) in
  let* hash := write_claim (address this) tokenAddress in
  do* print (cat [js "Token claim tx: https://basescan.org/tx/"; hash]) in
  do* wait_receipt hash in
  do* print (js "Token fees claimed!") in
  wret hash.

Record Collected := {
  wethClaimed : bool;
  wethAmount : JsString;
  tokensClaimed : list JsString;
}.

(** [for (const tokenAddress of tokenAddresses) { ... }] *)
Fixpoint for_tokens (this : ClawnchFeeCollector) (tokenAddresses : list JsString)
    (result : Collected) : W Collected :=
  match tokenAddresses with
  | [] => wret result
  | tokenAddress :: rest =>
    let* tokenFees := checkTokenFees this tokenAddress in
    let* result :=
      if 0 <? amountAvailable tokenFees then
        do* print (cat [js "Token fees available: ";
                        formatEther env (amountAvailable tokenFees);
                        js " ("; tokenAddress; js ")"]) in
        do* claimTokenFees this tokenAddress in
        wret {| wethClaimed := wethClaimed result;
                wethAmount := wethAmount result;
                tokensClaimed := tokensClaimed result ++ [tokenAddress] |}
      else wret result in
    for_tokens this rest result
  end.

(** Check and claim all available fees; [tokenAddresses = []] when the
    argument is left out. *)
Definition collectAllFees (this : ClawnchFeeCollector) (tokenAddresses : option (list JsString)) : W Collected :=
  let tokenAddresses := default [] tokenAddresses in
  let result := {| wethClaimed := false; wethAmount := js "0";
                   tokensClaimed := [] |} in
  (* Check and claim WETH fees *)
  let* wethFees := checkWETHFees this None in
  let* result :=
    if 0 <? amountAvailable wethFees then
      do* print (cat [js "WETH fees available: ";
                      formatEther env (amountAvailable wethFees); js " WETH"]) in
      do* claimWETHFees this in
      wret {| wethClaimed := true;
              wethAmount := formatEther env (amountAvailable wethFees);
              tokensClaimed := tokensClaimed result |}
    else
      do* print (js "No WETH fees to claim") in
      wret result in
  (* Check and claim token fees *)
  for_tokens this tokenAddresses result.

End Chains.

(* ====================================================================== *)
(** ** [cli.ts]: the commands *)

(** How a step of a command ends: normally, by a throw, or by
    [process.exit(code)], which ends the process on the spot. *)
Inductive Step (A : Type) :=
| Done (a : A)
| Threw (e : JsValue)
| Exit (code : Z).
Arguments Done {A} a.
Arguments Threw {A} e.
Arguments Exit {A} code.

Definition C (A : Type) : Type := list ChainEvent → Step A * list ChainEvent.

Definition cret {A} (a : A) : C A := fun h => (Done a, h).

Definition cbind {A B} (m : C A) (k : A → C B) : C B :=
  fun h => match m h with
           | (Done a, h') => k a h'
           | (Threw e, h') => (Threw e, h')
           | (Exit code, h') => (Exit code, h')
           end.

(** [try { body } catch (error) { handler }]: [process.exit] is not caught. *)
Definition ctry {A} (body : C A) (handler : JsValue → C A) : C A :=
  fun h => match body h with
           | (Threw e, h') => handler e h'
           | other => other
           end.

(** [process.exit(code)] *)
Definition process_exit {A} (code : Z) : C A := fun h => (Exit code, h).

(** [await m] for a method of one of the classes. *)
Definition await {A} (m : W A) : C A :=
  fun h => match m h with
           | (Resolved a, h') => (Done a, h')
           | (Rejected e, h') => (Threw e, h')
           end.

Notation "'let+' x ':=' m 'in' k" := (cbind m (fun x => k))
  (at level 10, x pattern, m at level 100, k at level 200).
Notation "'do+' m 'in' k" := (cbind m (fun _ => k))
  (at level 10, m at level 100, k at level 200).

(** [process.env]: the variables that are set. *)
Abbreviation ProcessEnv := (gmap string (list N)) (only parsing).

(** [x || fallback] for an optional string. *)
Definition or_else (x : option JsString) (fallback : JsString) : JsString :=
  default fallback (truthy_string x).

(** [s.repeat(n)] *)
Definition repeat_string (s : JsString) (n : nat) : JsString :=
  mjoin (replicate n s).

Section Commands.

Variable env : ChainEnv.
Variable process_env : ProcessEnv.

Definition console_log_line (line : JsString) : C unit := await (print line).

(** The configuration the [balance] command builds. *)
Definition balance_config : TreasuryConfig := {|
  wallets := {| base := or_else (process_env !! "BASE_WALLET") [];
                solana := or_else (process_env !! "SOLANA_WALLET") [] |};
  feeSources := [];
  yieldTargets := {| morpho := None; kamino := None |};
  runwayAlert := {| thresholdDays := 30%float; notifyEmail := None;
                    notifyWebhook := None |};
  payments := [];
|}.

(** The configuration the [runway] and [status] commands build. *)
Definition runway_config : TreasuryConfig := {|
  wallets := {| base := or_else (process_env !! "BASE_WALLET") [];
                solana := or_else (process_env !! "SOLANA_WALLET") [] |};
  feeSources := [];
  yieldTargets := {| morpho := None; kamino := None |};
  runwayAlert := {|
    thresholdDays :=
      parseInt env (or_else (process_env !! "RUNWAY_ALERT_DAYS") (js "30"));
    notifyEmail := None;
    notifyWebhook := None |};
  payments := [];
|}.

(** [if (!config.wallets.base || !config.wallets.solana) { ... }] *)
Definition require_wallets (config : TreasuryConfig) : C unit :=
  if bool_decide (base (wallets config) = [])
     || bool_decide (solana (wallets config) = [])
  then
    do+ await (print_error
                 (js "❌ BASE_WALLET and SOLANA_WALLET must be set in environment")
                 None) in
    process_exit 1
  else cret tt.

(** [status.alerts.forEach(alert => console.log(alert))] *)
Fixpoint for_each_alert (alerts : list JsString) : C unit :=
  match alerts with
  | [] => cret tt
  | alert :: rest => do+ console_log_line alert in for_each_alert rest
  end.

(** [treasury collect [-t, --tokens <addresses...>]] *)
Definition collect_command (tokens : option (list JsString)) : C unit :=
  ctry
    (let privateKey := process_env !! "BASE_PRIVATE_KEY" in
     let+ privateKey :=
       match truthy_string privateKey with
       | None =>
         do+ await (print_error
                      (js "❌ BASE_PRIVATE_KEY not found in environment") None) in
         process_exit 1
       | Some key => cret key
       end in
     let+ collector := await (newClawnchFeeCollector env privateKey) in
     let tokenAddresses := default [] tokens in
     do+ console_log_line (js "🔍 Checking available fees..." ++ [10%N]) in
     let+ result := await (collectAllFees env collector (Some tokenAddresses)) in
     do+ console_log_line ([10%N] ++ js "✅ Collection complete!") in
     do+ (if wethClaimed result
          then console_log_line (cat [js "  WETH claimed: "; wethAmount result])
          else cret tt) in
     if (0 <? length (tokensClaimed result))%nat
     then console_log_line
            (cat [js "  Tokens claimed: ";
                  nat_to_string (length (tokensClaimed result))])
     else cret tt)
    (fun error =>
     do+ await (print_error (js "❌ Error collecting fees:") (Some error)) in
     process_exit 1).

(** [treasury balance] *)
Definition balance_command : C unit :=
  ctry
    (let config := balance_config in
     do+ require_wallets config in
     do+ console_log_line (js "🔍 Fetching balances..." ++ [10%N]) in
     let+ balances := await (getAllBalances env config) in
     do+ console_log_line (js "💰 Treasury Balances:") in
     console_log_line (formatBalances env balances))
    (fun error =>
     do+ await (print_error (js "❌ Error fetching balances:") (Some error)) in
     process_exit 1).

(** [treasury runway -b, --burn <amount>]; the option is required. *)
Definition runway_command (burn : JsString) : C unit :=
  ctry
    (let config := runway_config in
     do+ require_wallets config in
     let burnRate := parseFloat env burn in
     do+ console_log_line (js "🔍 Calculating runway..." ++ [10%N]) in
     let+ status := await (getStatus env config (Some burnRate)) in
     do+ console_log_line (js "📊 Treasury Status:") in
     do+ console_log_line (formatBalances env (balances status)) in
     do+ console_log_line ([10%N] ++ js "📈 Runway Metrics:") in
     do+ console_log_line (formatRunway env (runway status)) in
     if (0 <? length (alerts status))%nat then
       do+ console_log_line ([10%N] ++ js "🚨 Alerts:") in
       for_each_alert (alerts status)
     else cret tt)
    (fun error =>
     do+ await (print_error (js "❌ Error calculating runway:") (Some error)) in
     process_exit 1).

(** [treasury status [-b, --burn <amount>]] *)
Definition status_command (burn : option JsString) : C unit :=
  ctry
    (let config := runway_config in
     do+ require_wallets config in
     let burnRate :=
       match truthy_string burn with
       | Some amount => parseFloat env amount
       | None => 0%float
       end in
     do+ console_log_line (js "🤖 Agent Treasury Manager" ++ [10%N]) in
     do+ console_log_line (repeat_string (js "═") 50) in
     let+ status := await (getStatus env config (Some burnRate)) in
     do+ console_log_line ([10%N] ++ js "💰 Balances:") in
     do+ console_log_line (formatBalances env (balances status)) in
     do+ (if (0 <? burnRate)%float then
            do+ console_log_line ([10%N] ++ js "📈 Runway:") in
            console_log_line (formatRunway env (runway status))
          else cret tt) in
     do+ (if (0 <? length (alerts status))%nat then
            do+ console_log_line ([10%N] ++ js "🚨 Alerts:") in
            for_each_alert (alerts status)
          else cret tt) in
     do+ console_log_line (repeat_string ([10%N] ++ js "═") 50) in
     console_log_line (js "Built by Skippy for Colosseum Agent Hackathon 2026"))
    (fun error =>
     do+ await (print_error (js "❌ Error getting status:") (Some error)) in
     process_exit 1).

End Commands.

(* ====================================================================== *)
(** ** A sample chain *)

Module SampleChain.

Definition treasury_key : PublicKey := {| key_bytes := [5; 5; 5]%N |}.

(** Reads that succeed: 1.5 ETH on Base, 2 SOL on Solana; WETH fees of 0.25
    and fees on the token ["0xaaa"] only. [formatEther] prints wei. *)
Definition world : ChainEnv := {|
  clock h := 1770210000000 + 1000 * Z.of_nat (length h);
  baseGetBalance _ _ := Resolved 1500000000000000000;
  solanaGetBalance _ _ := Resolved 2000000000%float;
  feesToClaim _ _ t :=
    Resolved (if bool_decide (t = WETH_ADDRESS) then 250000000000000000
              else if bool_decide (t = js "0xaaa") then 7 else 0);
  claim h _ _ := Resolved (js "0xhash" ++ nat_to_string (length h));
  waitForTransactionReceipt _ _ := Resolved tt;
  newPublicKey _ := Resolved treasury_key;
  privateKeyToAccount _ := Resolved (js "0xACC0");
  formatEther z := bigint_to_string z ++ js " wei";
  toFixed _ _ := js "?";
  numberToString _ := js "?";
  parseInt _ := 30%float;
  parseFloat _ := 100%float;
|}.

Definition rpc_error : JsValue := JsError (js "fetch failed").

(** Both RPC endpoints are down. *)
Definition world_down : ChainEnv := {|
  clock := clock world;
  baseGetBalance _ _ := Rejected rpc_error;
  solanaGetBalance _ _ := Rejected rpc_error;
  feesToClaim _ _ _ := Rejected rpc_error;
  claim _ _ _ := Rejected rpc_error;
  waitForTransactionReceipt _ _ := Rejected rpc_error;
  newPublicKey := newPublicKey world;
  privateKeyToAccount := privateKeyToAccount world;
  formatEther := formatEther world;
  toFixed := toFixed world;
  numberToString := numberToString world;
  parseInt := parseInt world;
  parseFloat := parseFloat world;
|}.

Definition config : TreasuryConfig := {|
  wallets := {| base := js "0xBA5E"; solana := js "So1ana" |};
  feeSources := [];
  yieldTargets := {| morpho := None; kamino := None |};
  runwayAlert := {| thresholdDays := 30%float; notifyEmail := None;
                    notifyWebhook := None |};
  payments := [];
|}.

Definition collector : ClawnchFeeCollector := {| address := js "0xACC0" |}.


End SampleChain.

(* ====================================================================== *)
(** ** Vocabulary for the chain histories *)

(** The lines written by [console.error]. *)
Definition error_lines (h : list ChainEvent) : list JsString :=
  omap (fun e => match e with PrintError line _ => Some line | _ => None end) h.

(** The lines written by [console.log]. *)
Definition printed (h : list ChainEvent) : list JsString :=
  omap (fun e => match e with Print line => Some line | _ => None end) h.

(** The tokens whose fees were read, and the tokens claimed. *)
Definition checked (h : list ChainEvent) : list JsString :=
  omap (fun e => match e with ReadFeesToClaim _ t => Some t | _ => None end) h.

Definition claimed (h : list ChainEvent) : list JsString :=
  omap (fun e => match e with WriteClaim _ t => Some t | _ => None end) h.

Definition owned_by (owner : JsString) (e : ChainEvent) : Prop :=
  match e with
  | ReadFeesToClaim o _ | WriteClaim o _ => o = owner
  | _ => True
  end.

(** The chain call [call], made after [h], was rejected with [e]. *)
Definition rejected_by (env : ChainEnv) (h : list ChainEvent) (call : ChainEvent)
    (e : JsValue) : Prop :=
  match call with
  | ReadFeesToClaim o t => feesToClaim env h o t = Rejected e
  | WriteClaim o t => claim env h o t = Rejected e
  | WaitForReceipt hash => waitForTransactionReceipt env h hash = Rejected e
  | _ => False
  end.

(** The lines of [cli.ts] that end a command early. *)
Definition wallets_missing : JsString :=
  js "❌ BASE_WALLET and SOLANA_WALLET must be set in environment".

Definition key_missing : JsString :=
  js "❌ BASE_PRIVATE_KEY not found in environment".



(** ** A sample session *)

Module SampleSession.

(** The world of [Sample] with a registry that cannot be reached. *)
Definition world_registry_down : Env := {|
  now := now Sample.world;
  isAgentRegistered _ _ := Rejected Sample.rpc_down;
  registerAgent := registerAgent Sample.world;
  commitReasoning := commitReasoning Sample.world;
  revealReasoning := revealReasoning Sample.world;
  verifyReasoning := verifyReasoning Sample.world;
  getAccountability := getAccountability Sample.world;
  getAgentCommitments := getAgentCommitments Sample.world;
|}.

(** A snapshot, a rebalance that succeeds, a payment whose action throws, a
    query, a report and another payment. *)
Definition calls : list MethodCall :=
  [ GetSessionLog;
    ExecuteAudited Sample.rebalancing Sample.succeeds;
    ExecuteAudited Sample.paying Sample.fails;
    GetAccountabilityScore;
    FormatAuditReport;
    ExecuteAudited Sample.paying Sample.succeeds ].


End SampleSession.

(* ====================================================================== *)
(** * Properties *)

(** ** Running a computation *)

(** Unfold the sequencing and the primitive steps of a method applied to a
    state, leaving strings, traces and oracles alone. *)
Ltac run_m :=
  cbv [executeAudited getAccountabilityScore getAuditHistory verifyAction
       getSessionLog initialize formatAuditReport
       bind ret throw try_catch interact newDate console_log console_error
       client_isAgentRegistered client_registerAgent client_commitReasoning
       client_revealReasoning client_verifyReasoning client_getAccountability
       client_getAgentCommitments run ensureReady wallet_asserted get_this
       update_this alloc array_push read_array read_record
       set_history set_store set_this
       set_committed set_executed set_revealed];
  cbn [history this store committed executed revealed].

(** Histories as one list appended to the initial history. *)
Ltac norm_history :=
  repeat rewrite <- (app_assoc (A := Event)) in *; cbn [app] in *.

Ltac unfold_stages :=
  unfold after_reveal, after_failed_action, audit_record, before_reveal,
    before_action, before_commit in *.

(** ** The object store *)

Lemma array_at_lt (st : list Obj) a elems :
  array_at st a = Some elems → (a < length st)%nat.
Proof.
  unfold array_at. destruct (st !! a) eqn:E; [|done].
  intros _. by eapply lookup_lt_Some.
Qed.

Lemma record_at_lt (st : list Obj) r rec :
  record_at st r = Some rec → (r < length st)%nat.
Proof.
  unfold record_at. destruct (st !! r) eqn:E; [|done].
  intros _. by eapply lookup_lt_Some.
Qed.

Lemma array_at_app (st : list Obj) o a elems :
  array_at st a = Some elems → array_at (st ++ [o]) a = Some elems.
Proof.
  intros H. pose proof (array_at_lt _ _ _ H) as Hlt.
  unfold array_at in *. by rewrite lookup_app_l.
Qed.

Lemma record_at_app (st : list Obj) o r rec :
  record_at st r = Some rec → record_at (st ++ [o]) r = Some rec.
Proof.
  intros H. pose proof (record_at_lt _ _ _ H) as Hlt.
  unfold record_at in *. by rewrite lookup_app_l.
Qed.

Lemma record_at_new (st : list Obj) rec :
  record_at (st ++ [ObjRecord rec]) (length st) = Some rec.
Proof. unfold record_at. by rewrite list_lookup_middle. Qed.

Lemma array_at_new (st : list Obj) elems :
  array_at (st ++ [ObjArray elems]) (length st) = Some elems.
Proof. unfold array_at. by rewrite list_lookup_middle. Qed.

Lemma array_at_insert_eq (st : list Obj) a elems :
  (a < length st)%nat → array_at (<[a := ObjArray elems]> st) a = Some elems.
Proof. intros H. unfold array_at. by rewrite list_lookup_insert_eq. Qed.

Lemma array_at_insert_ne (st : list Obj) a b o :
  a ≠ b → array_at (<[a := o]> st) b = array_at st b.
Proof. intros H. unfold array_at. by rewrite list_lookup_insert_ne. Qed.

Lemma record_at_insert_array (st : list Obj) a elems r :
  is_Some (array_at st a) →
  record_at (<[a := ObjArray elems]> st) r = record_at st r.
Proof.
  intros [old Hold]. pose proof (array_at_lt _ _ _ Hold) as Hlt.
  unfold record_at, array_at in *.
  destruct (decide (a = r)) as [->|Hne].
  - rewrite list_lookup_insert_eq by done.
    by destruct (st !! r) as [[]|].
  - by rewrite list_lookup_insert_ne.
Qed.

Lemma array_at_insert_record (st : list Obj) r rec a :
  is_Some (record_at st r) →
  array_at (<[r := ObjRecord rec]> st) a = array_at st a.
Proof.
  intros [old Hold]. pose proof (record_at_lt _ _ _ Hold) as Hlt.
  unfold record_at, array_at in *.
  destruct (decide (r = a)) as [->|Hne].
  - rewrite list_lookup_insert_eq by done.
    by destruct (st !! a) as [[]|].
  - by rewrite list_lookup_insert_ne.
Qed.

Lemma record_at_insert_record (st : list Obj) r rec x :
  is_Some (record_at st r) →
  is_Some (record_at st x) →
  is_Some (record_at (<[r := ObjRecord rec]> st) x).
Proof.
  intros [old Hold] Hx. pose proof (record_at_lt _ _ _ Hold) as Hlt.
  unfold record_at in *. destruct (decide (r = x)) as [->|Hne].
  - by rewrite list_lookup_insert_eq.
  - by rewrite list_lookup_insert_ne.
Qed.

Lemma record_at_app_is_Some (st : list Obj) o r :
  is_Some (record_at st r) → record_at (st ++ [o]) r = record_at st r.
Proof. intros [rec Hrec]. rewrite Hrec. by apply record_at_app. Qed.

(** The records of a list of references only depend on those references. *)
Lemma mapM_record_at_ext (st st' : list Obj) (refs : list loc) :
  Forall (fun r => record_at st' r = record_at st r) refs →
  mapM (record_at st') refs = mapM (record_at st) refs.
Proof.
  induction 1 as [|r refs Hr _ IH]; [done|].
  cbn. by rewrite Hr, IH.
Qed.

Lemma mapM_record_at_is_Some (st : list Obj) (refs : list loc) :
  Forall (fun r => is_Some (record_at st r)) refs ↔
  is_Some (mapM (record_at st) refs).
Proof.
  rewrite mapM_is_Some. done.
Qed.

(** The records of an array only depend on the array and on the records it
    refers to. *)
Lemma records_of_ext (st st' : list Obj) a a' :
  array_at st' a' = array_at st a →
  (∀ r, is_Some (record_at st r) → record_at st' r = record_at st r) →
  is_Some (records_of st a) →
  records_of st' a' = records_of st a.
Proof.
  unfold records_of. intros -> Hsame [recs Hrecs].
  destruct (array_at st a) as [refs|]; [|done]. cbn in *.
  apply mapM_record_at_ext.
  assert (is_Some (mapM (record_at st) refs)) as Hall by eauto.
  apply mapM_record_at_is_Some in Hall.
  eapply Forall_impl; [exact Hall|]. intros r Hr. by apply Hsame.
Qed.

Lemma wf_ledger s : wf s ↔ is_Some (ledger s).
Proof.
  unfold wf, ledger, records_of, ledger_refs. split.
  - intros (elems & -> & Hall). cbn. by apply mapM_record_at_is_Some.
  - intros [recs H]. destruct (array_at _ _) as [elems|]; [|done].
    exists elems. split; [done|]. apply mapM_record_at_is_Some. by exists recs.
Qed.

Lemma ledger_refs_records s recs :
  ledger s = Some recs →
  ∃ refs, ledger_refs s = Some refs ∧ mapM (record_at (store s)) refs = Some recs.
Proof.
  unfold ledger, records_of, ledger_refs.
  destruct (array_at _ _) as [elems|]; [|done]. cbn. eauto.
Qed.

(** ** Strings *)

Lemma cat2 (a b : JsString) : cat [a; b] = a ++ b.
Proof. unfold cat. cbn. by rewrite app_nil_r. Qed.

Lemma cat3 (a b c : JsString) : cat [a; b; c] = a ++ b ++ c.
Proof. unfold cat. cbn. by rewrite app_nil_r. Qed.

Lemma cat5 (a b c d e : JsString) : cat [a; b; c; d; e] = a ++ b ++ c ++ d ++ e.
Proof. unfold cat. cbn. by rewrite app_nil_r. Qed.


Lemma default_uri address :
  cat [SOLPRISM_EXPLORER; js "/commitment/"; address]
  = js "https://www.solprism.app/commitment/" ++ address.
Proof. rewrite cat3, app_assoc. reflexivity. Qed.

Lemma buildReasoningUri_cases t r commit :
  (∀ base, reasoningStorageUri (config t) = Some base → base ≠ [] →
     buildReasoningUri t r commit = base ++ js "/" ++ commitmentHash commit)
  ∧ (reasoningStorageUri (config t) = None
     ∨ reasoningStorageUri (config t) = Some [] →
     buildReasoningUri t r commit
     = js "https://www.solprism.app/commitment/" ++ commitmentAddress commit).
Proof.
  unfold buildReasoningUri. split.
  - intros base -> Hne. destruct base; [done|]. cbn [truthy_string].
    by rewrite cat3.
  - intros [-> | ->]; cbn [truthy_string]; apply default_uri.
Qed.

(** ** Histories *)

Lemma reveal_calls_app h h' :
  reveal_calls (h ++ h') = reveal_calls h ++ reveal_calls h'.
Proof. apply omap_app. Qed.

Lemma client_calls_app h h' :
  client_calls (h ++ h') = client_calls h ++ client_calls h'.
Proof. apply List.filter_app. Qed.


Lemma commit_settles_before_action s r w commit :
  ∃ later,
    before_action s r w commit ++ [RunAction]
    = (before_commit s r ++ [CommitReasoning w (toReasoningTrace r)]) ++ later.
Proof. eexists. unfold_stages. norm_history. reflexivity. Qed.

Lemma action_settles_before_reveal s r w commit uri :
  ∃ later,
    before_reveal s r w commit ++ [RevealReasoning w (commitmentAddress commit) uri]
    = (before_action s r w commit ++ [RunAction]) ++ later.
Proof. eexists. unfold_stages. norm_history. reflexivity. Qed.

(** ** The four ways [executeAudited] ends *)

Section Branches.

Variables (env : Env) (s : State) (r : TreasuryReasoning)
          (f : list Event → Outcome JsValue).

Lemma executeAudited_not_initialized :
  wallet (this s) = None →
  executeAudited env r f s = (Rejected NotInitialized, s).
Proof. intros Hw. run_m. rewrite Hw. by destruct s. Qed.

Variable w : Keypair.
Hypothesis Hw : wallet (this s) = Some w.

Lemma executeAudited_commit_fails e :
  commitReasoning env (before_commit s r) w (toReasoningTrace r) = Rejected e →
  executeAudited env r f s =
    (Rejected e,
     set_history (fun _ => before_commit s r
                           ++ [CommitReasoning w (toReasoningTrace r)]) s).
Proof.
  unfold_stages. intros Hc.
  run_m. rewrite Hw. run_m. rewrite Hw. run_m. norm_history.
  rewrite Hc. reflexivity.
Qed.

Variable commit : CommitResult.
Hypothesis Hc :
  commitReasoning env (before_commit s r) w (toReasoningTrace r) = Resolved commit.

Lemma executeAudited_action_fails e :
  f (before_action s r w commit) = Rejected e →
  executeAudited env r f s =
    (Rejected e, set_history (fun _ => after_failed_action s r w commit) s).
Proof.
  unfold_stages. intros Ha.
  run_m. rewrite Hw. run_m. rewrite Hw. run_m. norm_history.
  rewrite Hc. run_m. norm_history.
  rewrite Ha. run_m. norm_history. reflexivity.
Qed.

Variable result : JsValue.
Hypothesis Ha : f (before_action s r w commit) = Resolved result.

Lemma executeAudited_reveal_fails e :
  revealReasoning env (before_reveal s r w commit) w (commitmentAddress commit)
    (buildReasoningUri (this s) r commit) = Rejected e →
  executeAudited env r f s =
    (Rejected e,
     set_history (fun _ => before_reveal s r w commit
                           ++ [RevealReasoning w (commitmentAddress commit)
                                 (buildReasoningUri (this s) r commit)]) s).
Proof.
  unfold_stages. intros Hr.
  run_m. rewrite Hw. run_m. rewrite Hw. run_m. norm_history.
  rewrite Hc. run_m. norm_history.
  rewrite Ha. run_m. rewrite Hw. run_m. norm_history.
  rewrite Hr. reflexivity.
Qed.

Variable reveal : RevealResult.
Hypothesis Hr :
  revealReasoning env (before_reveal s r w commit) w (commitmentAddress commit)
    (buildReasoningUri (this s) r commit) = Resolved reveal.

Lemma executeAudited_resolves elems :
  array_at (store s) (actionLog (this s)) = Some elems →
  executeAudited env r f s =
    (Resolved (length (store s)),
     {| this := this s;
        store :=
          <[actionLog (this s) := ObjArray (elems ++ [length (store s)])]>
            (store s ++ [ObjRecord (audit_record s r w env commit reveal result)]);
        history := after_reveal s r w commit reveal |}).
Proof.
  unfold_stages. intros Harr.
  run_m. rewrite Hw. run_m. rewrite Hw. run_m. norm_history.
  rewrite Hc. run_m. norm_history.
  rewrite Ha. run_m. rewrite Hw. run_m. norm_history.
  rewrite Hr. run_m.
  erewrite array_at_app by exact Harr.
  norm_history. reflexivity.
Qed.

End Branches.

(** Every run with a wallet starts with the commit call. *)
Lemma executeAudited_reaches_commit env s r f w :
  wf s →
  wallet (this s) = Some w →
  ∃ out s' rest,
    executeAudited env r f s = (out, s')
    ∧ history s' = before_commit s r ++ CommitReasoning w (toReasoningTrace r) :: rest.
Proof.
  intros (elems & Harr & _) Hw.
  destruct (commitReasoning env (before_commit s r) w (toReasoningTrace r))
    as [commit|e] eqn:Hc.
  2:{ eexists _, _, []. split; [by apply executeAudited_commit_fails|]. done. }
  destruct (f (before_action s r w commit)) as [result|e] eqn:Ha.
  2:{ eexists _, _, _.
      split; [by apply (executeAudited_action_fails env s r f w Hw commit Hc)|].
      cbn [history set_history]. unfold_stages. norm_history. reflexivity. }
  destruct (revealReasoning env (before_reveal s r w commit) w
              (commitmentAddress commit) (buildReasoningUri (this s) r commit))
    as [reveal|e] eqn:Hr.
  - eexists _, _, _.
    split; [by apply (executeAudited_resolves env s r f w Hw commit Hc result
                        Ha reveal Hr elems)|].
    cbn [history]. unfold_stages. norm_history. reflexivity.
  - eexists _, _, _.
    split; [by apply (executeAudited_reveal_fails env s r f w Hw commit Hc
                        result Ha e)|].
    cbn [history set_history]. unfold_stages. norm_history. reflexivity.
Qed.

Lemma getSessionLog_resolves s refs :
  ledger_refs s = Some refs →
  getSessionLog s
  = (Resolved (length (store s)), set_store (fun st => st ++ [ObjArray refs]) s).
Proof. unfold ledger_refs. intros Hrefs. run_m. by rewrite Hrefs. Qed.

(** ** The ledger across changes of the store *)

Lemma ledger_after_push (st : list Obj) a elems recs rec :
  array_at st a = Some elems →
  mapM (record_at st) elems = Some recs →
  let st' := <[a := ObjArray (elems ++ [length st])]> (st ++ [ObjRecord rec]) in
  array_at st' a = Some (elems ++ [length st])
  ∧ record_at st' (length st) = Some rec
  ∧ mapM (record_at st') (elems ++ [length st]) = Some (recs ++ [rec]).
Proof.
  intros Harr Hrecs st'.
  pose proof (array_at_app st (ObjRecord rec) a elems Harr) as Harr'.
  assert (Hrec : ∀ r, record_at st' r = record_at (st ++ [ObjRecord rec]) r).
  { intros r. apply record_at_insert_array. by rewrite Harr'. }
  split; [|split].
  - apply array_at_insert_eq. by eapply array_at_lt.
  - rewrite Hrec. apply record_at_new.
  - apply mapM_Some. apply mapM_Some in Hrecs.
    apply Forall2_app.
    + eapply Forall2_impl; [exact Hrecs|].
      intros r x Hx. cbn beta in Hx. rewrite Hrec. by apply record_at_app.
    + constructor; [|constructor]. rewrite Hrec. apply record_at_new.
Qed.

(** A new array changes no array and no record that exists. *)
Lemma ledger_after_alloc_array s elems :
  wf s →
  let s' := set_store (fun st => st ++ [ObjArray elems]) s in
  ledger_refs s' = ledger_refs s ∧ ledger s' = ledger s.
Proof.
  intros Hwf s'. pose proof Hwf as (refs & Hrefs & _).
  assert (ledger_refs s' = ledger_refs s) as Heq.
  { unfold ledger_refs. cbn [store this set_store s'].
    rewrite Hrefs. by apply array_at_app. }
  split; [exact Heq|].
  apply records_of_ext; [exact Heq| |by apply wf_ledger].
  intros r. apply record_at_app_is_Some.
Qed.

(** Changing an array other than [this.actionLog] changes no record and not
    the ledger. *)
Lemma ledger_after_array_write s a elems :
  wf s →
  is_Some (array_at (store s) a) →
  a ≠ actionLog (this s) →
  let s' := set_store (fun st => <[a := ObjArray elems]> st) s in
  ledger_refs s' = ledger_refs s ∧ ledger s' = ledger s.
Proof.
  intros Hwf Ha Hne s'.
  assert (ledger_refs s' = ledger_refs s) as Heq.
  { unfold ledger_refs. cbn [store this set_store s'].
    by apply array_at_insert_ne. }
  split; [exact Heq|].
  apply records_of_ext; [exact Heq| |by apply wf_ledger].
  intros r _. by apply record_at_insert_array.
Qed.

(** ** Well-formed states *)

Lemma wf_constructor c : wf (constructor c).
Proof. exists []. split; [reflexivity | constructor]. Qed.

Lemma wf_same_ledger s s' : wf s → ledger s' = ledger s → wf s'.
Proof. intros Hwf Heq. apply wf_ledger. rewrite Heq. by apply wf_ledger. Qed.

Lemma wf_initialize env w s : wf s → wf (snd (initialize env w s)).
Proof.
  intros Hwf. run_m. cbn [config].
  destruct (truthy_bool (autoRegister (config (this s)))); run_m;
    [|by eapply wf_same_ledger].
  destruct (isAgentRegistered env (history s) (publicKey w)) as [[]|];
    run_m; cbn [negb]; run_m; try (by eapply wf_same_ledger).
  match goal with
  | |- context [registerAgent env ?h w ?name] =>
    destruct (registerAgent env h w name)
  end; run_m; by eapply wf_same_ledger.
Qed.

Lemma wf_executeAudited env r f s : wf s → wf (snd (executeAudited env r f s)).
Proof.
  intros Hwf.
  destruct (wallet (this s)) as [w|] eqn:Hw.
  2:{ by rewrite executeAudited_not_initialized. }
  destruct (commitReasoning env (before_commit s r) w (toReasoningTrace r))
    as [commit|e] eqn:Hc.
  2:{ rewrite (executeAudited_commit_fails env s r f w Hw e Hc).
      by eapply wf_same_ledger. }
  destruct (f (before_action s r w commit)) as [result|e] eqn:Ha.
  2:{ rewrite (executeAudited_action_fails env s r f w Hw commit Hc e Ha).
      by eapply wf_same_ledger. }
  destruct (revealReasoning env (before_reveal s r w commit) w
              (commitmentAddress commit) (buildReasoningUri (this s) r commit))
    as [reveal|e] eqn:Hr.
  2:{ rewrite (executeAudited_reveal_fails env s r f w Hw commit Hc result
                 Ha e Hr).
      by eapply wf_same_ledger. }
  pose proof Hwf as Hwf'. apply wf_ledger in Hwf' as [recs Hrecs].
  destruct (ledger_refs_records _ _ Hrecs) as (refs & Hrefs & Hmap).
  rewrite (executeAudited_resolves env s r f w Hw commit Hc result Ha reveal
             Hr refs Hrefs).
  destruct (ledger_after_push (store s) (actionLog (this s)) refs recs
              (audit_record s r w env commit reveal result) Hrefs Hmap)
    as (Harr' & _ & Hmap').
  apply wf_ledger. exists (recs ++ [audit_record s r w env commit reveal result]).
  unfold ledger, records_of. cbn [snd store this]. rewrite Harr'. exact Hmap'.
Qed.

Lemma wf_getSessionLog s : wf s → wf (snd (getSessionLog s)).
Proof.
  intros Hwf. pose proof Hwf as (refs & Hrefs & _).
  rewrite (getSessionLog_resolves s refs Hrefs). cbn [snd].
  eapply wf_same_ledger; [exact Hwf|]. by apply ledger_after_alloc_array.
Qed.

(** Assigning to the properties of a record keeps the state well formed. *)
Lemma wf_mutate_record s r rec : wf s → wf (mutate (MutateRecord r rec) s).
Proof.
  intros Hwf. cbn [mutate].
  destruct (record_at (store s) r) as [old|] eqn:Hold; [|exact Hwf].
  destruct Hwf as (refs & Hrefs & Hall). exists refs. cbn [store this set_store].
  split.
  - rewrite array_at_insert_record; [exact Hrefs | by rewrite Hold].
  - eapply Forall_impl; [exact Hall|]. intros x Hx.
    apply record_at_insert_record; [by rewrite Hold | exact Hx].
Qed.

(** So does any change of an array other than [this.actionLog], which no
    caller holds. *)
Lemma wf_mutate_array s a elems :
  wf s → a ≠ actionLog (this s) → wf (mutate (MutateArray a elems) s).
Proof.
  intros Hwf Hne. cbn [mutate].
  destruct (array_at (store s) a) as [old|] eqn:Hold; [|exact Hwf].
  eapply wf_same_ledger; [exact Hwf|].
  apply ledger_after_array_write; [exact Hwf | by rewrite Hold | exact Hne].
Qed.

Create HintDb wf discriminated.
#[local] Hint Resolve wf_constructor wf_initialize wf_executeAudited
  wf_getSessionLog : wf.

Lemma sample_fresh_wf : wf Sample.fresh.
Proof. unfold Sample.fresh. auto with wf. Qed.

Lemma sample_ready_wf : wf Sample.ready.
Proof. unfold Sample.ready, Sample.fresh. auto with wf. Qed.

Lemma sample_with_storage_wf : wf Sample.with_storage.
Proof. unfold Sample.with_storage. auto with wf. Qed.

Lemma sample_after_one_wf : wf Sample.after_one.
Proof. unfold Sample.after_one, Sample.ready, Sample.fresh. auto with wf. Qed.

Lemma sample_clock_monotone : clock_monotone Sample.world.
Proof.
  intros h h'. cbn [now Sample.world]. rewrite length_app. lia.
Qed.

(** ** The audit report *)

Lemma push_entry_block lines entry :
  push_entry lines entry = lines ++ entry_block entry.
Proof.
  unfold push_entry, push, entry_block, slice0.
  rewrite !cat2, !cat3, cat5.
  repeat rewrite <- (app_assoc (A := list N)). reflexivity.
Qed.

Lemma for_entries_resolves s refs recs :
  Forall2 (fun r rec => record_at (store s) r = Some rec) refs recs →
  ∀ lines,
    for_entries refs lines s
    = (Resolved (lines ++ concat (entry_block <$> recs)), s).
Proof.
  induction 1 as [|r rec refs recs Hr _ IH]; intros lines.
  - cbn [for_entries fmap list_fmap concat]. by rewrite app_nil_r.
  - cbn [for_entries fmap list_fmap concat]. run_m. rewrite Hr.
    rewrite IH, push_entry_block. by rewrite <- app_assoc.
Qed.

(** The report is a function of the agent name and of the records of the
    ledger, and producing it changes nothing. *)
Lemma formatAuditReport_resolves s recs :
  ledger s = Some recs →
  formatAuditReport s
  = (Resolved (report_text (agentName (config (this s))) recs), s).
Proof.
  intros Hrecs.
  destruct (ledger_refs_records _ _ Hrecs) as (refs & Hrefs & Hmap).
  unfold ledger_refs in Hrefs. apply mapM_Some in Hmap.
  run_m. rewrite Hrefs.
  destruct Hmap as [|r rec refs recs Hr Hrest].
  - cbn [length Nat.eqb]. cbv [ret]. unfold report_text.
    destruct s. reflexivity.
  - pose proof (Forall2_length _ _ _ Hrest) as Hlen.
    cbn [length Nat.eqb lookup list_lookup].
    assert (Hall : Forall2 (fun x y => record_at (store s) x = Some y)
                           (r :: refs) (rec :: recs)) by (by constructor).
    run_m. rewrite Hr.
    rewrite (for_entries_resolves s (r :: refs) (rec :: recs) Hall).
    unfold report_text, report_header, report_footer, push.
    cbn [length]. rewrite Hlen, !cat2.
    repeat rewrite <- (app_assoc (A := list N)).
    destruct s. reflexivity.
Qed.

Lemma report_lines name recs first :
  length (report_header name (length recs) first
          ++ concat (entry_block <$> recs) ++ report_footer)
  = (8 + 8 * length recs + 3)%nat.
Proof.
  rewrite !length_app. cbn [report_header report_footer length].
  assert (length (concat (entry_block <$> recs)) = (8 * length recs)%nat) as ->.
  { induction recs as [|rec recs IH]; [done|].
    cbn [fmap list_fmap concat]. rewrite length_app, IH.
    cbn [entry_block length]. lia. }
  lia.
Qed.

Lemma formatAuditReport_same_ledger s s' :
  wf s → config (this s') = config (this s) → ledger s' = ledger s →
  fst (formatAuditReport s') = fst (formatAuditReport s).
Proof.
  intros Hwf Hconfig Hledger. apply wf_ledger in Hwf as [recs Hrecs].
  rewrite (formatAuditReport_resolves s recs Hrecs).
  rewrite (formatAuditReport_resolves s' recs) by congruence.
  cbn [fst]. by rewrite Hconfig.
Qed.

(** ** C1: the run in which every step resolves *)



(** ** C2: the action throws *)



(** ** C3: the commit or the reveal fails *)



(** ** C4: the guard of [executeAudited] *)

Lemma isReady_false_without_wallet s : wallet (this s) = None → isReady s = false.
Proof. unfold isReady. intros ->. reflexivity. Qed.

(** C4 (as stated) fails: after [initialize] with [autoRegister: false] the
    wallet is set and the agent is not marked registered, so [isReady()] is
    false; [executeAudited] does not reject: it calls the client, runs the
    action and appends to the ledger. *)
Lemma executeAudited_runs_when_not_ready :
  isReady Sample.unregistered = false
  ∧ ledger_refs Sample.unregistered = Some []
  ∧ ∃ ref s',
      executeAudited Sample.world Sample.rebalancing Sample.succeeds
        Sample.unregistered = (Resolved ref, s')
      ∧ length (client_calls (history s')) = 2%nat
      ∧ client_calls (history Sample.unregistered) = []
      ∧ action_runs (history s') = 1%nat
      ∧ ledger_refs s' = Some [ref].
Proof.
  split; [reflexivity|]. split; [reflexivity|].
  eexists _, _. split; [vm_compute; reflexivity|].
  repeat split; vm_compute; reflexivity.
Qed.

(** C4 (amended). In a well-formed state: while no wallet has been set,
    [isReady()] is false and [executeAudited] rejects with the
    not-initialized error and leaves the whole state as it was, so no call is
    made on the client, the action is not invoked and the ledger is
    unchanged. Once a wallet is set the guard passes, whether or not the
    agent is marked registered, and the run goes on to the commit call. *)
Theorem executeAudited_guard env s r f :
  wf s →
  (wallet (this s) = None →
   isReady s = false
   ∧ executeAudited env r f s = (Rejected NotInitialized, s))
  ∧ (∀ w, wallet (this s) = Some w →
     ∃ out s' rest,
       executeAudited env r f s = (out, s')
       ∧ history s' = before_commit s r
                      ++ CommitReasoning w (toReasoningTrace r) :: rest).
Proof.
  intros Hwf. split.
  - intros Hw. split; [by apply isReady_false_without_wallet|].
    by apply executeAudited_not_initialized.
  - intros w Hw. by apply executeAudited_reaches_commit.
Qed.

Lemma executeAudited_guard_witness :
  isReady Sample.fresh = false
  ∧ executeAudited Sample.world Sample.rebalancing Sample.succeeds Sample.fresh
    = (Rejected NotInitialized, Sample.fresh).
Proof.
  apply (proj1 (executeAudited_guard Sample.world Sample.fresh
                  Sample.rebalancing Sample.succeeds sample_fresh_wf)).
  reflexivity.
Defined.

(** ** C5: the reasoning formatter *)

(** C5. [toReasoningTrace] is a total function of the reasoning, so equal
    reasonings give equal traces; the confidence of the decision is 90, 70,
    45, 20 for the risk levels low, medium, high, critical; the decision
    repeats the rationale as its reasoning and carries the expected outcome;
    the parameters hold the risk level and the risk factors, hold the
    portfolio value and the positions exactly when the reasoning has a
    portfolio context, hold the constraints exactly when the reasoning has
    constraints, and hold nothing else. *)
Theorem toReasoningTrace_spec (r : TreasuryReasoning) :
  let trace := toReasoningTrace r in
  let params := parameters (trace_action trace) in
  (∀ r', r' = r → toReasoningTrace r' = trace)
  ∧ ((level (risk r) = low → confidence (trace_decision trace) = 90%float)
     ∧ (level (risk r) = medium → confidence (trace_decision trace) = 70%float)
     ∧ (level (risk r) = high → confidence (trace_decision trace) = 45%float)
     ∧ (level (risk r) = critical →
        confidence (trace_decision trace) = 20%float))
  ∧ reasoning_text (trace_decision trace) = rationale r
  ∧ decision_expectedOutcome (trace_decision trace) = expectedOutcome r
  ∧ type (trace_action trace) = action r
  ∧ description (trace_action trace) = rationale r
  ∧ params !! "risk_level" = Some (PString (level_name (level (risk r))))
  ∧ params !! "risk_factors" = Some (PStrings (factors (risk r)))
  ∧ params !! "portfolio_value_usd"
    = (fun p => PNumber (totalValueUSD p)) <$> portfolioContext r
  ∧ params !! "positions"
    = (fun p => PPositions (positions p)) <$> portfolioContext r
  ∧ params !! "constraints" = PStrings <$> constraints r
  ∧ dom params ⊆ {[ "risk_level"; "risk_factors"; "portfolio_value_usd";
                    "positions"; "constraints" ]}.
Proof.
  intros trace params. subst trace params.
  unfold toReasoningTrace, createReasoningTrace.
  cbn [trace_action trace_decision parameters confidence reasoning_text
       decision_expectedOutcome type description].
  split; [by intros r' ->|].
  split; [by repeat split; intros ->|].
  do 4 (split; [reflexivity|]).
  destruct (portfolioContext r) as [p|], (constraints r) as [c|];
    cbn [spread fmap option_fmap option_map];
    (repeat split; [vm_compute; reflexivity ..|]);
    apply (bool_decide_unpack _); vm_compute; exact I.
Qed.

Example rebalancing_trace_parameters :
  let params := parameters (trace_action (toReasoningTrace Sample.rebalancing)) in
  params !! "portfolio_value_usd" = Some (PNumber 15000%float)
  ∧ params !! "constraints" = None
  ∧ confidence (trace_decision (toReasoningTrace Sample.rebalancing)) = 90%float.
Proof. repeat split; vm_compute; reflexivity. Qed.

(** ** C6: the URI handed to the reveal call *)

(** C6 (as stated) fails: with [reasoningStorageUri: ''] a storage base URI
    is present in the configuration, and the reveal call is made with the
    default explorer location, not with [{base}/{commitmentHash}]. *)
Lemma empty_storage_uri_uses_default :
  reasoningStorageUri (config (this Sample.with_empty_storage)) = Some []
  ∧ ∃ ref s',
      executeAudited Sample.world Sample.rebalancing Sample.succeeds
        Sample.with_empty_storage = (Resolved ref, s')
      ∧ reveal_calls (history s')
        = [(Sample.agent_wallet, js "Cmt8",
            js "https://www.solprism.app/commitment/Cmt8")]
      ∧ js "https://www.solprism.app/commitment/Cmt8"
        ≠ [] ++ js "/" ++ js "a3f8c9d1e2b7a3f8c9d1e2b7".
Proof.
  split; [reflexivity|].
  eexists _, _. split; [vm_compute; reflexivity|].
  split; [vm_compute; reflexivity|].
  vm_compute. discriminate.
Qed.

(** C6 (amended). On the success branch of [executeAudited] (wallet set,
    commit and action resolved) exactly one reveal call is made, for the
    commitment address of the commit result, and its URI is
    [{reasoningStorageUri}/{commitmentHash}] when the configured
    [reasoningStorageUri] is a non-empty string, and
    [https://www.solprism.app/commitment/{commitmentAddress}] when it is
    absent or the empty string. *)
Theorem reveal_call_uri env s r f w commit result :
  wf s →
  wallet (this s) = Some w →
  commitReasoning env (before_commit s r) w (toReasoningTrace r) = Resolved commit →
  f (before_action s r w commit) = Resolved result →
  ∃ out s' uri,
    executeAudited env r f s = (out, s')
    ∧ reveal_calls (history s')
      = reveal_calls (history s) ++ [(w, commitmentAddress commit, uri)]
    ∧ (∀ base, reasoningStorageUri (config (this s)) = Some base → base ≠ [] →
         uri = base ++ js "/" ++ commitmentHash commit)
    ∧ (reasoningStorageUri (config (this s)) = None
       ∨ reasoningStorageUri (config (this s)) = Some [] →
       uri = js "https://www.solprism.app/commitment/"
             ++ commitmentAddress commit).
Proof.
  intros (elems & Harr & _) Hw Hc Ha.
  destruct (buildReasoningUri_cases (this s) r commit) as [Hset Hdefault].
  destruct (revealReasoning env (before_reveal s r w commit) w
              (commitmentAddress commit) (buildReasoningUri (this s) r commit))
    as [reveal|e] eqn:Hr.
  - eexists _, _, (buildReasoningUri (this s) r commit).
    split; [by apply (executeAudited_resolves env s r f w Hw commit Hc result
                        Ha reveal Hr elems)|].
    split; [|by split].
    cbn [history]. unfold_stages. norm_history.
    rewrite reveal_calls_app. cbn [reveal_calls omap list_omap]. reflexivity.
  - eexists _, _, (buildReasoningUri (this s) r commit).
    split; [by apply (executeAudited_reveal_fails env s r f w Hw commit Hc
                        result Ha e)|].
    split; [|by split].
    cbn [history set_history]. unfold_stages. norm_history.
    rewrite reveal_calls_app. cbn [reveal_calls omap list_omap]. reflexivity.
Qed.

Lemma reveal_call_uri_witness :
  ∃ out s' uri,
    executeAudited Sample.world Sample.rebalancing Sample.succeeds
      Sample.with_storage = (out, s')
    ∧ reveal_calls (history s')
      = reveal_calls (history Sample.with_storage)
        ++ [(Sample.agent_wallet, commitmentAddress Sample.first_commit, uri)]
    ∧ (∀ base,
         reasoningStorageUri (config (this Sample.with_storage)) = Some base →
         base ≠ [] →
         uri = base ++ js "/" ++ commitmentHash Sample.first_commit)
    ∧ (reasoningStorageUri (config (this Sample.with_storage)) = None
       ∨ reasoningStorageUri (config (this Sample.with_storage)) = Some [] →
       uri = js "https://www.solprism.app/commitment/"
             ++ commitmentAddress Sample.first_commit).
Proof.
  apply (reveal_call_uri Sample.world Sample.with_storage Sample.rebalancing
           Sample.succeeds Sample.agent_wallet Sample.first_commit
           (JsStr (js "ok"))).
  - exact sample_with_storage_wf.
  - reflexivity.
  - vm_compute. reflexivity.
  - reflexivity.
Defined.

Example with_storage_reveal_uri :
  reveal_calls
    (history (snd (executeAudited Sample.world Sample.rebalancing
                     Sample.succeeds Sample.with_storage)))
  = [(Sample.agent_wallet, js "Cmt8",
      js "https://ipfs.io/ipfs/a3f8c9d1e2b7a3f8c9d1e2b7")].
Proof. vm_compute. reflexivity. Qed.

(** ** C7: the three timestamps *)

(** C7. With a wall clock that never goes back, every audit record that
    [executeAudited] returns, which is the record it has just appended to the
    session ledger, has [committed ≤ executed ≤ revealed]. *)
Theorem timestamps_ordered env s r f ref s' :
  clock_monotone env →
  wf s →
  executeAudited env r f s = (Resolved ref, s') →
  ∃ rec refs,
    record_at (store s') ref = Some rec
    ∧ ledger_refs s' = Some (refs ++ [ref])
    ∧ committed (timestamps rec) ≤ executed (timestamps rec)
                                 ≤ revealed (timestamps rec).
Proof.
  intros Hclock Hwf Hrun.
  destruct (wallet (this s)) as [w|] eqn:Hw.
  2:{ by rewrite executeAudited_not_initialized in Hrun. }
  destruct (commitReasoning env (before_commit s r) w (toReasoningTrace r))
    as [commit|e] eqn:Hc.
  2:{ by rewrite (executeAudited_commit_fails env s r f w Hw e Hc) in Hrun. }
  destruct (f (before_action s r w commit)) as [result|e] eqn:Ha.
  2:{ by rewrite (executeAudited_action_fails env s r f w Hw commit Hc e Ha)
        in Hrun. }
  destruct (revealReasoning env (before_reveal s r w commit) w
              (commitmentAddress commit) (buildReasoningUri (this s) r commit))
    as [reveal|e] eqn:Hr.
  2:{ by rewrite (executeAudited_reveal_fails env s r f w Hw commit Hc result
                    Ha e Hr) in Hrun. }
  apply wf_ledger in Hwf as [recs Hrecs].
  destruct (ledger_refs_records _ _ Hrecs) as (refs & Hrefs & Hmap).
  rewrite (executeAudited_resolves env s r f w Hw commit Hc result Ha reveal
             Hr refs Hrefs) in Hrun.
  injection Hrun as <- <-.
  destruct (ledger_after_push (store s) (actionLog (this s)) refs recs
              (audit_record s r w env commit reveal result) Hrefs Hmap)
    as (Harr' & Hnew & _).
  exists (audit_record s r w env commit reveal result), refs.
  split; [exact Hnew|]. split; [exact Harr'|].
  cbn [audit_record timestamps committed executed revealed].
  destruct (commit_settles_before_action s r w commit) as [l1 E1].
  destruct (action_settles_before_reveal s r w commit
              (buildReasoningUri (this s) r commit)) as [l2 E2].
  rewrite E2, E1. unfold clock_monotone in Hclock.
  split; apply Hclock.
Qed.

Lemma timestamps_ordered_witness :
  ∃ rec refs,
    record_at (store Sample.after_one) 1%nat = Some rec
    ∧ ledger_refs Sample.after_one = Some (refs ++ [1%nat])
    ∧ committed (timestamps rec) ≤ executed (timestamps rec)
                                 ≤ revealed (timestamps rec).
Proof.
  apply (timestamps_ordered Sample.world Sample.ready Sample.rebalancing
           Sample.succeeds 1%nat Sample.after_one).
  - exact sample_clock_monotone.
  - exact sample_ready_wf.
  - vm_compute. reflexivity.
Defined.

Example sample_timestamps :
  timestamps <$> record_at (store Sample.after_one) 1%nat
  = Some {| committed := 1770210009000; executed := 1770210013000;
            revealed := 1770210017000 |}.
Proof. vm_compute. reflexivity. Qed.

(** ** C8: what [getSessionLog] hands out *)

(** C8 (as stated) fails: the array handed out is new, but its elements are
    the very records of the ledger. A caller who assigns to a property of
    an element of the snapshot changes what the ledger holds, what a later
    [getSessionLog] returns and what [formatAuditReport] prints. *)
Lemma snapshot_shares_records :
  ∃ a s1 rec,
    getSessionLog Sample.after_one = (Resolved a, s1)
    ∧ array_at (store s1) a = Some [1%nat]
    ∧ record_at (store s1) 1%nat = Some rec
    ∧ let m := MutateRecord 1%nat
                 (set_explorerUrl (js "https://evil.example/") rec) in
      through (store s1) a m
      ∧ (map explorerUrl <$> ledger s1)
        = Some [js "https://www.solprism.app/commitment/Cmt8"]
      ∧ (map explorerUrl <$> ledger (mutate m s1))
        = Some [js "https://evil.example/"]
      ∧ fst (formatAuditReport (mutate m s1)) ≠ fst (formatAuditReport s1)
      ∧ ∃ a' s2,
          getSessionLog (mutate m s1) = (Resolved a', s2)
          ∧ (map explorerUrl <$> records_of (store s2) a')
            = Some [js "https://evil.example/"].
Proof.
  eexists _, _, _. split; [vm_compute; reflexivity|].
  split; [vm_compute; reflexivity|].
  split; [vm_compute; reflexivity|].
  cbv zeta. split.
  { exists [1%nat]. split; [vm_compute; reflexivity|]. apply list_elem_of_here. }
  split; [vm_compute; reflexivity|].
  split; [vm_compute; reflexivity|].
  split; [vm_compute; discriminate|].
  eexists _, _. split; vm_compute; reflexivity.
Qed.

(** C8 (amended). [getSessionLog] returns a new array holding the references
    of the session ledger, and changes nothing else. A second call with no
    append in between returns an array with the same sequence. Whatever a
    caller does to the returned array itself (push, pop, assignment to an
    index or to its length), the ledger keeps its references and records,
    [formatAuditReport] returns what it returned before, and a later
    [getSessionLog] returns the ledger's sequence again. *)
Theorem getSessionLog_copies_array s a s1 :
  wf s →
  getSessionLog s = (Resolved a, s1) →
  a ≠ actionLog (this s)
  ∧ array_at (store s) a = None
  ∧ array_at (store s1) a = ledger_refs s
  ∧ records_of (store s1) a = ledger s
  ∧ ledger_refs s1 = ledger_refs s
  ∧ ledger s1 = ledger s
  ∧ (∃ a' s2,
       getSessionLog s1 = (Resolved a', s2)
       ∧ a' ≠ a
       ∧ array_at (store s2) a' = array_at (store s2) a
       ∧ records_of (store s2) a' = records_of (store s2) a)
  ∧ ∀ elems,
      let s1' := mutate (MutateArray a elems) s1 in
      array_at (store s1') a = Some elems
      ∧ ledger_refs s1' = ledger_refs s
      ∧ ledger s1' = ledger s
      ∧ fst (formatAuditReport s1') = fst (formatAuditReport s)
      ∧ ∃ a' s2,
          getSessionLog s1' = (Resolved a', s2)
          ∧ array_at (store s2) a' = ledger_refs s
          ∧ records_of (store s2) a' = ledger s.
Proof.
  intros Hwf Hget.
  pose proof Hwf as (refs & Hrefs & Hall).
  rewrite (getSessionLog_resolves s refs Hrefs) in Hget.
  injection Hget as <- <-.
  pose proof (array_at_lt _ _ _ Hrefs) as Hlt.
  assert (Hledger_refs : ledger_refs s = Some refs) by exact Hrefs.
  assert (Hne : length (store s) ≠ actionLog (this s)) by lia.
  destruct (ledger_after_alloc_array s refs Hwf) as [Hrefs1 Hledger1].
  set (s1 := set_store (fun st => st ++ [ObjArray refs]) s) in *.
  assert (Hsnap : array_at (store s1) (length (store s)) = Some refs)
    by apply array_at_new.
  assert (Hwf1 : wf s1) by (apply wf_ledger; rewrite Hledger1; by apply wf_ledger).
  assert (Hrecords : ∀ st a', array_at st a' = Some refs →
            (∀ r, is_Some (record_at (store s) r) →
                  record_at st r = record_at (store s) r) →
            records_of st a' = ledger s).
  { intros st a' Ha' Hsame. apply records_of_ext; [by rewrite Ha'|done|].
    by apply wf_ledger. }
  split; [exact Hne|].
  split. { unfold array_at. by rewrite lookup_ge_None_2. }
  split; [by rewrite Hsnap|].
  split. { apply Hrecords; [exact Hsnap|]. intros r. apply record_at_app_is_Some. }
  split; [exact Hrefs1|]. split; [exact Hledger1|].
  split.
  - eexists _, _.
    split; [apply (getSessionLog_resolves s1 refs); by rewrite Hrefs1|].
    cbn [store set_store].
    split. { cbn [s1 store set_store]. rewrite length_app. cbn. lia. }
    split.
    + rewrite array_at_new. symmetry. by apply array_at_app.
    + transitivity (ledger s).
      * apply Hrecords; [apply array_at_new|]. intros r Hr.
        rewrite record_at_app_is_Some.
        -- by apply record_at_app_is_Some.
        -- cbn [s1 store set_store]. by rewrite record_at_app_is_Some.
      * symmetry. apply Hrecords; [by apply array_at_app|]. intros r Hr.
        rewrite record_at_app_is_Some.
        -- by apply record_at_app_is_Some.
        -- cbn [s1 store set_store]. by rewrite record_at_app_is_Some.
  - intros elems s1'. subst s1'. cbn [mutate]. rewrite Hsnap.
    destruct (ledger_after_array_write s1 (length (store s)) elems Hwf1)
      as [Hrefs2 Hledger2]; [by rewrite Hsnap|exact Hne|].
    set (s2 := set_store (fun st => <[length (store s) := ObjArray elems]> st) s1) in *.
    split.
    { apply array_at_insert_eq. cbn [s1 store set_store]. rewrite length_app.
      cbn. lia. }
    split; [congruence|]. split; [congruence|].
    split.
    { transitivity (fst (formatAuditReport s1)).
      - by apply formatAuditReport_same_ledger.
      - by apply formatAuditReport_same_ledger. }
    assert (Hwf2 : wf s2) by (apply wf_ledger; rewrite Hledger2; by apply wf_ledger).
    eexists _, _.
    split; [apply (getSessionLog_resolves s2 refs); by rewrite Hrefs2, Hrefs1|].
    cbn [store set_store].
    split; [rewrite Hledger_refs; apply array_at_new|].
    apply Hrecords; [apply array_at_new|]. intros r Hr.
    rewrite record_at_app_is_Some.
    + cbn [s2 store set_store].
      rewrite record_at_insert_array by (by rewrite Hsnap).
      by apply record_at_app_is_Some.
    + cbn [s2 store set_store].
      rewrite record_at_insert_array by (by rewrite Hsnap).
      cbn [s1 store set_store]. by rewrite record_at_app_is_Some.
Qed.

Lemma getSessionLog_copies_array_witness :
  let s1 := snd (getSessionLog Sample.after_one) in
  let emptied := mutate (MutateArray 2%nat []) s1 in
  array_at (store s1) 2%nat = Some [1%nat]
  ∧ array_at (store emptied) 2%nat = Some []
  ∧ ledger_refs emptied = Some [1%nat]
  ∧ ledger emptied = ledger Sample.after_one
  ∧ fst (formatAuditReport emptied) = fst (formatAuditReport Sample.after_one).
Proof.
  intros s1 emptied.
  destruct (getSessionLog_copies_array Sample.after_one 2%nat s1
              sample_after_one_wf eq_refl)
    as (_ & _ & Hsnap & _ & _ & _ & _ & Hmutate).
  destruct (Hmutate []) as (Hemptied & Hrefs & Hledger & Hreport & _).
  split; [exact Hsnap|]. split; [exact Hemptied|].
  split; [exact Hrefs|]. split; [exact Hledger|]. exact Hreport.
Defined.

(** ** C9: the text of the report *)

(** C9. On an empty session ledger [formatAuditReport] returns the fixed
    sentence. On a ledger of N records it returns, joined by line feeds: the
    header, with the agent name and the count N; then N blocks of eight lines,
    one per record in insertion order, showing the action kind in upper case,
    the rationale, the risk level with its factors, the expected outcome, the
    first 16 code units of the commitment hash, the explorer URL and the
    committed timestamp; then the footer. The state is unchanged. *)
Theorem formatAuditReport_spec s recs :
  ledger s = Some recs →
  ∃ text,
    formatAuditReport s = (Resolved text, s)
    ∧ match recs with
      | [] => text = js "No audited actions in this session."
      | first :: _ =>
        let lines :=
          [ rule;
            js "  SOLPRISM Audit Report — Agent Treasury Manager";
            rule;
            [];
            js "  Agent: " ++ agentName (config (this s));
            js "  Actions: " ++ nat_to_string (length recs);
            js "  Session: " ++ toISOString (committed (timestamps first));
            [] ]
          ++ concat ((fun entry =>
               [ js "  ┌─ " ++ toUpperCase (action_name (action (reasoning entry)));
                 js "  │  Rationale: " ++ rationale (reasoning entry);
                 js "  │  Risk: " ++ level_name (level (risk (reasoning entry)))
                   ++ js " (" ++ join (js ", ") (factors (risk (reasoning entry)))
                   ++ js ")";
                 js "  │  Expected: " ++ expectedOutcome (reasoning entry);
                 js "  │  Commitment: "
                   ++ take 16 (commitmentHash (commit entry)) ++ js "...";
                 js "  │  Explorer: " ++ explorerUrl entry;
                 js "  └─ Committed "
                   ++ toISOString (committed (timestamps entry));
                 [] ]) <$> recs)
          ++ [ rule; js "  Verify any action: https://www.solprism.app/"; rule ]
        in
        text = join [10%N] lines
        ∧ length lines = (8 + 8 * length recs + 3)%nat
      end.
Proof.
  intros Hrecs. eexists. split; [by apply formatAuditReport_resolves|].
  destruct recs as [|first recs]; [reflexivity|].
  split; [reflexivity|].
  apply (report_lines (agentName (config (this s))) (first :: recs) first).
Qed.

Lemma formatAuditReport_spec_witness :
  ∃ text,
    formatAuditReport Sample.after_two = (Resolved text, Sample.after_two)
    ∧ match Sample.records_after_two with
      | [] => text = js "No audited actions in this session."
      | first :: _ =>
        let lines :=
          [ rule;
            js "  SOLPRISM Audit Report — Agent Treasury Manager";
            rule;
            [];
            js "  Agent: " ++ agentName (config (this Sample.after_two));
            js "  Actions: " ++ nat_to_string (length Sample.records_after_two);
            js "  Session: " ++ toISOString (committed (timestamps first));
            [] ]
          ++ concat ((fun entry =>
               [ js "  ┌─ " ++ toUpperCase (action_name (action (reasoning entry)));
                 js "  │  Rationale: " ++ rationale (reasoning entry);
                 js "  │  Risk: " ++ level_name (level (risk (reasoning entry)))
                   ++ js " (" ++ join (js ", ") (factors (risk (reasoning entry)))
                   ++ js ")";
                 js "  │  Expected: " ++ expectedOutcome (reasoning entry);
                 js "  │  Commitment: "
                   ++ take 16 (commitmentHash (commit entry)) ++ js "...";
                 js "  │  Explorer: " ++ explorerUrl entry;
                 js "  └─ Committed "
                   ++ toISOString (committed (timestamps entry));
                 [] ]) <$> Sample.records_after_two)
          ++ [ rule; js "  Verify any action: https://www.solprism.app/"; rule ]
        in
        text = join [10%N] lines
        ∧ length lines = (8 + 8 * length Sample.records_after_two + 3)%nat
      end.
Proof.
  apply (formatAuditReport_spec Sample.after_two Sample.records_after_two).
  vm_compute. reflexivity.
Defined.

Example report_of_empty_ledger :
  fst (formatAuditReport Sample.ready)
  = Resolved (js "No audited actions in this session.").
Proof. vm_compute. reflexivity. Qed.

Example report_of_two_actions :
  fst (formatAuditReport Sample.after_two) = Resolved (js
"═══════════════════════════════════════════════════
  SOLPRISM Audit Report — Agent Treasury Manager
═══════════════════════════════════════════════════

  Agent: Skippy Treasury Agent
  Actions: 2
  Session: 2026-02-04T13:00:09.000Z

  ┌─ REBALANCE
  │  Rationale: SOL allocation drifted to 68%, target is 50%
  │  Risk: low (Small position adjustment, High liquidity)
  │  Expected: Portfolio returns to 50/50 SOL/USDC split
  │  Commitment: a3f8c9d1e2b7a3f8...
  │  Explorer: https://www.solprism.app/commitment/Cmt8
  └─ Committed 2026-02-04T13:00:09.000Z

  ┌─ PAYMENT
  │  Rationale: Monthly OpenRouter payment
  │  Risk: medium (Recurring payment)
  │  Expected: API access maintained
  │  Commitment: a3f8c9d1e2b7a3f8...
  │  Explorer: https://www.solprism.app/commitment/Cmt23
  └─ Committed 2026-02-04T13:00:24.000Z

═══════════════════════════════════════════════════
  Verify any action: https://www.solprism.app/
═══════════════════════════════════════════════════").
Proof. vm_compute. reflexivity. Qed.

(** ** C10: the queries that need a wallet *)

(** C10. While no wallet is set, [getAccountabilityScore] and
    [getAuditHistory] reject with the same not-initialized error as
    [executeAudited] and leave the state, and so the history of client calls,
    as it was. Once a wallet is set they make one client call for the
    wallet's public key ([getAuditHistory] with the given limit, or 50) and
    settle to the client's answer unchanged. [verifyAction] makes its client
    call in either case. *)
Theorem queries_require_wallet env s limit :
  (wallet (this s) = None →
   getAccountabilityScore env s = (Rejected NotInitialized, s)
   ∧ getAuditHistory env limit s = (Rejected NotInitialized, s)
   ∧ ∀ r f, executeAudited env r f s = (Rejected NotInitialized, s))
  ∧ (∀ w, wallet (this s) = Some w →
     getAccountabilityScore env s
     = (getAccountability env (history s) (publicKey w),
        set_history (fun h => h ++ [GetAccountability (publicKey w)]) s)
     ∧ getAuditHistory env limit s
       = (getAgentCommitments env (history s) (publicKey w)
            (default 50%float limit),
          set_history (fun h => h ++ [GetAgentCommitments (publicKey w)
                                        (default 50%float limit)]) s))
  ∧ (∀ address r,
       history (snd (verifyAction env address r s))
       = history s ++ [VerifyReasoning address (toReasoningTrace r)]
       ∧ ∀ v,
           verifyReasoning env (history s) address (toReasoningTrace r)
             = Resolved v →
           fst (verifyAction env address r s)
           = Resolved {| verification_valid := valid v;
                         verification_message := message v;
                         verification_explorerUrl := buildExplorerUrl address |}).
Proof.
  split; [|split].
  - intros Hw. split; [|split].
    + run_m. rewrite Hw. by destruct s.
    + run_m. rewrite Hw. by destruct s.
    + intros r f. by apply executeAudited_not_initialized.
  - intros w Hw. split.
    + run_m. rewrite Hw. run_m. rewrite Hw.
      by destruct (getAccountability env (history s) (publicKey w)).
    + run_m. rewrite Hw. run_m. rewrite Hw.
      by destruct (getAgentCommitments env (history s) (publicKey w)
                     (default 50%float limit)).
  - intros address r. split.
    + run_m.
      by destruct (verifyReasoning env (history s) address (toReasoningTrace r)).
    + intros v Hv. run_m. by rewrite Hv.
Qed.

Example queries_before_and_after_initialize :
  fst (getAccountabilityScore Sample.world Sample.fresh) = Rejected NotInitialized
  ∧ fst (getAuditHistory Sample.world None Sample.fresh) = Rejected NotInitialized
  ∧ fst (getAccountabilityScore Sample.world Sample.ready)
    = Resolved (Some 100%float)
  ∧ history (snd (getAuditHistory Sample.world None Sample.ready))
    = history Sample.ready
      ++ [GetAgentCommitments (publicKey Sample.agent_wallet) 50%float]
  ∧ fst (verifyAction Sample.world (js "Cmt8") Sample.rebalancing Sample.fresh)
    = Resolved {| verification_valid := true;
                  verification_message := js "Reasoning matches commitment";
                  verification_explorerUrl :=
                    js "https://www.solprism.app/commitment/Cmt8" |}.
Proof. repeat split; vm_compute; reflexivity. Qed.

(** ** Sample evaluations *)

Example js_code_units :
  js "═—┌─│└" = [9552; 8212; 9484; 9472; 9474; 9492]%N
  ∧ js "🔒 ok" = [55357; 56594; 32; 111; 107]%N
  ∧ length rule = 51%nat.
Proof. repeat split; reflexivity. Qed.

Example toISOString_samples :
  toISOString 0 = js "1970-01-01T00:00:00.000Z"
  ∧ toISOString 1770210000000 = js "2026-02-04T13:00:00.000Z"
  ∧ toISOString 1709251199999 = js "2024-02-29T23:59:59.999Z"
  ∧ toISOString (-1) = js "1969-12-31T23:59:59.999Z"
  ∧ toISOString 253402300800000 = js "+010000-01-01T00:00:00.000Z"
  ∧ toISOString (-62167219200001) = js "-000001-12-31T23:59:59.999Z".
Proof. repeat split; vm_compute; reflexivity. Qed.

Example toUpperCase_action_names :
  toUpperCase <$> (action_name <$>
    [rebalance; transfer; allocation; fee_collection; yield_deployment;
     payment; swap; emergency_withdrawal])
  = [js "REBALANCE"; js "TRANSFER"; js "ALLOCATION"; js "FEE_COLLECTION";
     js "YIELD_DEPLOYMENT"; js "PAYMENT"; js "SWAP"; js "EMERGENCY_WITHDRAWAL"].
Proof. vm_compute. reflexivity. Qed.

Example initialize_registers_once :
  isReady Sample.fresh = false
  ∧ isReady Sample.ready = true
  ∧ client_calls (history Sample.ready)
    = [IsAgentRegistered (publicKey Sample.agent_wallet);
       RegisterAgent Sample.agent_wallet (js "Skippy Treasury Agent")]
  ∧ history Sample.unregistered = [].
Proof. repeat split; vm_compute; reflexivity. Qed.

Example audited_payment_is_executeAudited :
  auditedPayment Sample.world (js "Monthly OpenRouter payment") medium
    [js "Recurring payment"] (js "API access maintained") Sample.succeeds
    Sample.ready
  = executeAudited Sample.world
      {| action := payment; rationale := js "Monthly OpenRouter payment";
         risk := {| level := medium; factors := [js "Recurring payment"] |};
         expectedOutcome := js "API access maintained";
         portfolioContext := None; constraints := None |}
      Sample.succeeds Sample.ready.
Proof. reflexivity. Qed.

(* ====================================================================== *)
(** * Properties of sessions *)

Lemma initialize_unfold env w s :
  initialize env w s =
  let t := {| config := config (this s); wallet := Some w;
              registered := registered (this s); actionLog := actionLog (this s) |} in
  let t' := {| config := config (this s); wallet := Some w; registered := true;
               actionLog := actionLog (this s) |} in
  let name := agentName (config (this s)) in
  let asked := history s ++ [IsAgentRegistered (publicKey w)] in
  if truthy_bool (autoRegister (config (this s))) then
    match isAgentRegistered env (history s) (publicKey w) with
    | Rejected e => (Rejected e, {| this := t; store := store s; history := asked |})
    | Resolved true =>
      (Resolved tt, {| this := t'; store := store s; history := asked |})
    | Resolved false =>
      match registerAgent env (before_register s w) w name with
      | Rejected e =>
        (Rejected e, {| this := t; store := store s;
                        history := before_register s w ++ [RegisterAgent w name] |})
      | Resolved _ =>
        (Resolved tt,
         {| this := t'; store := store s;
            history := before_register s w
                       ++ [RegisterAgent w name;
                           ConsoleLog (js "✅ Agent registered on SOLPRISM")] |})
      end
    end
  else (Resolved tt, {| this := t; store := store s; history := history s |}).
Proof.
  cbv zeta. unfold before_register. run_m. cbn [config].
  destruct (truthy_bool (autoRegister (config (this s)))); run_m; [|reflexivity].
  destruct (isAgentRegistered env (history s) (publicKey w)) as [[]|];
    run_m; cbn [negb]; run_m; try reflexivity.
  norm_history.
  match goal with
  | |- context [registerAgent env ?h w ?name] =>
    destruct (registerAgent env h w name)
  end; run_m; norm_history; reflexivity.
Qed.

(** X1. [initialize] with [autoRegister] on (the default): when the registry
    answers, and the registration it asks for when the agent is not yet
    registered succeeds, the call resolves, [isReady()] is true afterwards,
    the wallet is stored, and the client was asked [isAgentRegistered] once
    and, only when the answer was no, [registerAgent] once; the
    configuration, the ledger reference and the store are untouched. *)
Theorem initialize_makes_ready env w s (already : bool) :
  truthy_bool (autoRegister (config (this s))) = true →
  isAgentRegistered env (history s) (publicKey w) = Resolved already →
  (already = false →
   registerAgent env (before_register s w) w (agentName (config (this s)))
   = Resolved tt) →
  ∃ s',
    initialize env w s = (Resolved tt, s')
    ∧ isReady s' = true
    ∧ wallet (this s') = Some w
    ∧ client_calls (history s')
      = client_calls (history s)
        ++ IsAgentRegistered (publicKey w)
           :: (if already then []
               else [RegisterAgent w (agentName (config (this s)))])
    ∧ config (this s') = config (this s)
    ∧ actionLog (this s') = actionLog (this s)
    ∧ store s' = store s.
Proof.
  intros Hauto Hasked Hregister. rewrite initialize_unfold. cbv zeta.
  rewrite Hauto, Hasked. destruct already.
  - eexists. split; [reflexivity|]. cbn [this store history wallet config actionLog].
    split; [reflexivity|]. split; [reflexivity|].
    split; [|done]. by rewrite client_calls_app.
  - rewrite (Hregister eq_refl).
    eexists. split; [reflexivity|]. cbn [this store history wallet config actionLog].
    split; [reflexivity|]. split; [reflexivity|].
    split; [|done]. unfold before_register. norm_history.
    by rewrite client_calls_app.
Qed.

Lemma initialize_makes_ready_witness :
  ∃ s',
    initialize Sample.world Sample.agent_wallet Sample.fresh = (Resolved tt, s')
    ∧ isReady s' = true
    ∧ wallet (this s') = Some Sample.agent_wallet
    ∧ client_calls (history s')
      = client_calls (history Sample.fresh)
        ++ [IsAgentRegistered (publicKey Sample.agent_wallet);
            RegisterAgent Sample.agent_wallet
              (agentName (config (this Sample.fresh)))]
    ∧ config (this s') = config (this Sample.fresh)
    ∧ actionLog (this s') = actionLog (this Sample.fresh)
    ∧ store s' = store Sample.fresh.
Proof.
  apply (initialize_makes_ready Sample.world Sample.agent_wallet Sample.fresh
           false).
  - reflexivity.
  - reflexivity.
  - intros _. reflexivity.
Defined.

(** X2. When the registry lookup or the registration rejects, [initialize]
    rejects with the same error, but the wallet has already been stored:
    [registered] keeps its value, so [isReady()] is what [registered] was,
    and a later [executeAudited] passes [ensureReady] and reaches the commit
    call with that wallet. *)
Theorem initialize_failure_keeps_wallet env w s e :
  wf s →
  truthy_bool (autoRegister (config (this s))) = true →
  isAgentRegistered env (history s) (publicKey w) = Rejected e
  ∨ (isAgentRegistered env (history s) (publicKey w) = Resolved false
     ∧ registerAgent env (before_register s w) w (agentName (config (this s)))
       = Rejected e) →
  ∃ s',
    initialize env w s = (Rejected e, s')
    ∧ wallet (this s') = Some w
    ∧ registered (this s') = registered (this s)
    ∧ isReady s' = registered (this s)
    ∧ store s' = store s
    ∧ ∀ r f, ∃ out s'' rest,
        executeAudited env r f s' = (out, s'')
        ∧ history s'' = before_commit s' r
                        ++ CommitReasoning w (toReasoningTrace r) :: rest.
Proof.
  intros Hwf Hauto Hfail. rewrite initialize_unfold. cbv zeta. rewrite Hauto.
  destruct Hfail as [Hasked | [Hasked Hregister]]; rewrite Hasked, ?Hregister.
  all: eexists; split; [reflexivity|]; cbn [this store wallet registered].
  all: split; [reflexivity|]; split; [reflexivity|]; split; [reflexivity|].
  all: split; [reflexivity|]; intros r f.
  all: apply executeAudited_reaches_commit; [|reflexivity].
  all: by eapply wf_same_ledger.
Qed.

Lemma initialize_failure_keeps_wallet_witness :
  ∃ s',
    initialize SampleSession.world_registry_down Sample.agent_wallet Sample.fresh
    = (Rejected Sample.rpc_down, s')
    ∧ wallet (this s') = Some Sample.agent_wallet
    ∧ registered (this s') = registered (this Sample.fresh)
    ∧ isReady s' = registered (this Sample.fresh)
    ∧ store s' = store Sample.fresh
    ∧ ∀ r f, ∃ out s'' rest,
        executeAudited SampleSession.world_registry_down r f s' = (out, s'')
        ∧ history s''
          = before_commit s' r
            ++ CommitReasoning Sample.agent_wallet (toReasoningTrace r) :: rest.
Proof.
  apply (initialize_failure_keeps_wallet SampleSession.world_registry_down
           Sample.agent_wallet Sample.fresh Sample.rpc_down).
  - exact sample_fresh_wf.
  - reflexivity.
  - left. reflexivity.
Defined.

(** What a run of [executeAudited] does to the ledger, whichever way it
    ends. *)
Lemma executeAudited_ledger env r f s refs recs :
  ledger_refs s = Some refs →
  ledger s = Some recs →
  match executeAudited env r f s with
  | (Resolved ref, s') =>
    this s' = this s
    ∧ ledger_refs s' = Some (refs ++ [ref])
    ∧ ∃ rec, record_at (store s') ref = Some rec ∧ ledger s' = Some (recs ++ [rec])
  | (Rejected _, s') => this s' = this s ∧ store s' = store s
  end.
Proof.
  intros Hrefs Hrecs.
  destruct (wallet (this s)) as [w|] eqn:Hw.
  2:{ by rewrite executeAudited_not_initialized. }
  destruct (commitReasoning env (before_commit s r) w (toReasoningTrace r))
    as [commit|e] eqn:Hc.
  2:{ by rewrite (executeAudited_commit_fails env s r f w Hw e Hc). }
  destruct (f (before_action s r w commit)) as [result|e] eqn:Ha.
  2:{ by rewrite (executeAudited_action_fails env s r f w Hw commit Hc e Ha). }
  destruct (revealReasoning env (before_reveal s r w commit) w
              (commitmentAddress commit) (buildReasoningUri (this s) r commit))
    as [reveal|e] eqn:Hr.
  2:{ by rewrite (executeAudited_reveal_fails env s r f w Hw commit Hc result
                    Ha e Hr). }
  destruct (ledger_refs_records _ _ Hrecs) as (refs' & Hrefs' & Hmap).
  assert (refs' = refs) as -> by congruence.
  rewrite (executeAudited_resolves env s r f w Hw commit Hc result Ha reveal
             Hr refs Hrefs).
  destruct (ledger_after_push (store s) (actionLog (this s)) refs recs
              (audit_record s r w env commit reveal result) Hrefs Hmap)
    as (Harr' & Hnew & Hmap').
  split; [reflexivity|]. split; [exact Harr'|].
  eexists. split; [exact Hnew|].
  unfold ledger, records_of. cbn [store this]. rewrite Harr'. exact Hmap'.
Qed.



(** The queries change nothing but the history. *)
Lemma verifyAction_frame env address r s :
  this (snd (verifyAction env address r s)) = this s
  ∧ store (snd (verifyAction env address r s)) = store s.
Proof.
  run_m.
  by destruct (verifyReasoning env (history s) address (toReasoningTrace r)).
Qed.

Lemma getAccountabilityScore_frame env s :
  this (snd (getAccountabilityScore env s)) = this s
  ∧ store (snd (getAccountabilityScore env s)) = store s.
Proof.
  run_m. destruct (wallet (this s)) as [w|] eqn:Hw; run_m; rewrite ?Hw; [|done].
  by destruct (getAccountability env (history s) (publicKey w)).
Qed.

Lemma getAuditHistory_frame env limit s :
  this (snd (getAuditHistory env limit s)) = this s
  ∧ store (snd (getAuditHistory env limit s)) = store s.
Proof.
  run_m. destruct (wallet (this s)) as [w|] eqn:Hw; run_m; rewrite ?Hw; [|done].
  by destruct (getAgentCommitments env (history s) (publicKey w)
                 (default 50%float limit)).
Qed.

Lemma initialize_frame env w s :
  config (this (snd (initialize env w s))) = config (this s)
  ∧ actionLog (this (snd (initialize env w s))) = actionLog (this s)
  ∧ store (snd (initialize env w s)) = store s.
Proof.
  rewrite initialize_unfold. cbv zeta.
  destruct (truthy_bool _); [|done].
  destruct (isAgentRegistered _ _ _) as [[]|]; [done| |done].
  by destruct (registerAgent _ _ _ _).
Qed.

(** Each call keeps the ledger or appends one record to it. *)
Lemma perform_ledger env c s refs recs :
  ledger_refs s = Some refs →
  ledger s = Some recs →
  ∃ new_refs new_recs,
    ledger_refs (perform env c s) = Some (refs ++ new_refs)
    ∧ ledger (perform env c s) = Some (recs ++ new_recs)
    ∧ length new_refs = (if audited env c s then 1 else 0)%nat
    ∧ length new_recs = (if audited env c s then 1 else 0)%nat
    ∧ config (this (perform env c s)) = config (this s).
Proof.
  intros Hrefs Hrecs.
  assert (Hwf : wf s) by (apply wf_ledger; eauto).
  assert (Hsame : ∀ s', ledger_refs s' = ledger_refs s → ledger s' = ledger s →
            config (this s') = config (this s) →
            ∃ new_refs new_recs : list _,
              ledger_refs s' = Some (refs ++ new_refs)
              ∧ ledger s' = Some (recs ++ new_recs)
              ∧ length new_refs = 0%nat ∧ length new_recs = 0%nat
              ∧ config (this s') = config (this s)).
  { intros s' -> -> ->. exists [], []. by rewrite !app_nil_r. }
  destruct c as [w|r f|address r| |limit| |]; cbn [perform audited].
  - destruct (initialize_frame env w s) as (Hconfig & Hlog & Hstore).
    apply Hsame; [| |done].
    + unfold ledger_refs. by rewrite Hlog, Hstore.
    + unfold ledger. by rewrite Hlog, Hstore.
  - pose proof (executeAudited_ledger env r f s refs recs Hrefs Hrecs) as H.
    destruct (executeAudited env r f s) as [[ref|e] s']; cbn [fst snd].
    + destruct H as (Hthis & Hrefs' & rec & _ & Hrecs').
      exists [ref], [rec]. by rewrite Hthis.
    + destruct H as [Hthis Hstore]. apply Hsame.
      * unfold ledger_refs. by rewrite Hthis, Hstore.
      * unfold ledger. by rewrite Hthis, Hstore.
      * by rewrite Hthis.
  - destruct (verifyAction_frame env address r s) as [Hthis Hstore].
    apply Hsame; unfold ledger_refs, ledger; by rewrite Hthis, ?Hstore.
  - destruct (getAccountabilityScore_frame env s) as [Hthis Hstore].
    apply Hsame; unfold ledger_refs, ledger; by rewrite Hthis, ?Hstore.
  - destruct (getAuditHistory_frame env limit s) as [Hthis Hstore].
    apply Hsame; unfold ledger_refs, ledger; by rewrite Hthis, ?Hstore.
  - rewrite (getSessionLog_resolves s refs Hrefs). cbn [snd].
    destruct (ledger_after_alloc_array s refs Hwf) as [H1 H2].
    by apply Hsame.
  - rewrite (formatAuditReport_resolves s recs Hrecs). by apply Hsame.
Qed.

(** X4. Over any sequence of calls of the public methods, whether they
    resolve or reject, the ledger only grows at its end: the references and
    the records it held are a prefix of what it holds afterwards, and it
    gains exactly one record for each [executeAudited] that resolved. *)
Theorem ledger_append_only env cs s refs recs :
  ledger_refs s = Some refs →
  ledger s = Some recs →
  ∃ new_refs new_recs,
    ledger_refs (perform_all env cs s) = Some (refs ++ new_refs)
    ∧ ledger (perform_all env cs s) = Some (recs ++ new_recs)
    ∧ length new_refs = audited_count env cs s
    ∧ length new_recs = audited_count env cs s.
Proof.
  revert s refs recs. induction cs as [|c cs IH]; intros s refs recs Hrefs Hrecs.
  - exists [], []. by rewrite !app_nil_r.
  - destruct (perform_ledger env c s refs recs Hrefs Hrecs)
      as (refs1 & recs1 & Hrefs1 & Hrecs1 & Hlen1 & Hlen1' & _).
    destruct (IH _ _ _ Hrefs1 Hrecs1) as (refs2 & recs2 & Hrefs2 & Hrecs2 & Hlen2 & Hlen2').
    exists (refs1 ++ refs2), (recs1 ++ recs2). cbn [perform_all audited_count].
    rewrite !app_assoc, !length_app. repeat split; try done; lia.
Qed.

Lemma ledger_append_only_witness :
  ∃ new_refs new_recs,
    ledger_refs (perform_all Sample.world SampleSession.calls Sample.ready)
    = Some ([] ++ new_refs)
    ∧ ledger (perform_all Sample.world SampleSession.calls Sample.ready)
      = Some ([] ++ new_recs)
    ∧ length new_refs
      = audited_count Sample.world SampleSession.calls Sample.ready
    ∧ length new_recs
      = audited_count Sample.world SampleSession.calls Sample.ready.
Proof.
  apply (ledger_append_only Sample.world SampleSession.calls Sample.ready [] []).
  - reflexivity.
  - reflexivity.
Defined.

Lemma executeAudited_this env r f s :
  wf s → this (snd (executeAudited env r f s)) = this s.
Proof.
  intros Hwf. apply wf_ledger in Hwf as [recs Hrecs].
  destruct (ledger_refs_records _ _ Hrecs) as (refs & Hrefs & _).
  pose proof (executeAudited_ledger env r f s refs recs Hrefs Hrecs) as H.
  destruct (executeAudited env r f s) as [[ref|e] s']; cbn [snd]; tauto.
Qed.

(** Only [initialize] changes the instance, and only its wallet and its
    registered flag. *)
Lemma perform_instance env c s :
  wf s →
  wf (perform env c s)
  ∧ config (this (perform env c s)) = config (this s)
  ∧ (truthy_bool (autoRegister (config (this s))) = false →
     registered (this (perform env c s)) = registered (this s)).
Proof.
  intros Hwf. destruct c as [w|r f|address r| |limit| |]; cbn [perform].
  - split; [by apply wf_initialize|].
    rewrite initialize_unfold. cbv zeta.
    destruct (truthy_bool _); [|done].
    destruct (isAgentRegistered _ _ _) as [[]|]; [done| |done].
    by destruct (registerAgent _ _ _ _).
  - split; [by apply wf_executeAudited|]. by rewrite executeAudited_this.
  - destruct (verifyAction_frame env address r s) as [Hthis Hstore].
    rewrite Hthis. split; [|done]. eapply wf_same_ledger; [exact Hwf|].
    unfold ledger. by rewrite Hthis, Hstore.
  - destruct (getAccountabilityScore_frame env s) as [Hthis Hstore].
    rewrite Hthis. split; [|done]. eapply wf_same_ledger; [exact Hwf|].
    unfold ledger. by rewrite Hthis, Hstore.
  - destruct (getAuditHistory_frame env limit s) as [Hthis Hstore].
    rewrite Hthis. split; [|done]. eapply wf_same_ledger; [exact Hwf|].
    unfold ledger. by rewrite Hthis, Hstore.
  - split; [by apply wf_getSessionLog|].
    destruct Hwf as (refs & Hrefs & _).
    by rewrite (getSessionLog_resolves s refs Hrefs).
  - apply wf_ledger in Hwf as Hl. destruct Hl as [recs Hrecs].
    by rewrite (formatAuditReport_resolves s recs Hrecs).
Qed.

(** X5. With [autoRegister: false], [initialize] stores the wallet without
    any call on the client, and [isReady()] is false after any sequence of
    calls on the new instance, further [initialize] calls included. *)
Theorem never_ready_without_autoRegister env c w :
  autoRegister c = Some false →
  initialize env w (constructor c)
  = (Resolved tt,
     set_this (fun t => {| config := config t; wallet := Some w;
                           registered := registered t;
                           actionLog := actionLog t |}) (constructor c))
  ∧ ∀ cs, isReady (perform_all env cs (constructor c)) = false.
Proof.
  intros Hauto. split.
  - rewrite initialize_unfold. cbv zeta. cbn [constructor this config with_defaults autoRegister].
    by rewrite Hauto.
  - assert (Hinv : ∀ cs s, wf s →
              truthy_bool (autoRegister (config (this s))) = false →
              registered (this s) = false →
              isReady (perform_all env cs s) = false).
    { induction cs as [|call cs IH]; intros s Hwf Hfalse Hreg.
      - unfold isReady. cbn [perform_all]. rewrite Hreg. apply andb_false_r.
      - cbn [perform_all].
        destruct (perform_instance env call s Hwf) as (Hwf' & Hconfig & Hkeep).
        apply IH; [done|by rewrite Hconfig|by rewrite Hkeep]. }
    intros cs. apply Hinv; [apply wf_constructor| |reflexivity].
    cbn [constructor this config with_defaults autoRegister]. by rewrite Hauto.
Qed.

Lemma never_ready_without_autoRegister_witness :
  initialize Sample.world Sample.agent_wallet
    (constructor (Sample.settings None (Some false)))
  = (Resolved tt,
     set_this (fun t => {| config := config t;
                           wallet := Some Sample.agent_wallet;
                           registered := registered t;
                           actionLog := actionLog t |})
       (constructor (Sample.settings None (Some false))))
  ∧ ∀ cs,
      isReady (perform_all Sample.world cs
                 (constructor (Sample.settings None (Some false)))) = false.
Proof.
  apply (never_ready_without_autoRegister Sample.world
           (Sample.settings None (Some false)) Sample.agent_wallet).
  reflexivity.
Defined.



Lemma commit_calls_app h h' :
  commit_calls (h ++ h') = commit_calls h ++ commit_calls h'.
Proof. apply omap_app. Qed.

(** A run with a wallet makes exactly one commit call, for the trace of its
    reasoning. *)
Lemma executeAudited_commits_once env r f s w :
  wf s →
  wallet (this s) = Some w →
  commit_calls (history (snd (executeAudited env r f s)))
  = commit_calls (history s) ++ [(w, toReasoningTrace r)].
Proof.
  intros (refs & Hrefs & _) Hw.
  destruct (commitReasoning env (before_commit s r) w (toReasoningTrace r))
    as [cm|e] eqn:Hc.
  2:{ rewrite (executeAudited_commit_fails env s r f w Hw e Hc).
      cbn [snd history set_history]. unfold_stages. norm_history.
      by rewrite commit_calls_app. }
  destruct (f (before_action s r w cm)) as [result|e] eqn:Ha.
  2:{ rewrite (executeAudited_action_fails env s r f w Hw cm Hc e Ha).
      cbn [snd history set_history]. unfold_stages. norm_history.
      by rewrite commit_calls_app. }
  destruct (revealReasoning env (before_reveal s r w cm) w
              (commitmentAddress cm) (buildReasoningUri (this s) r cm))
    as [rv|e] eqn:Hr.
  2:{ rewrite (executeAudited_reveal_fails env s r f w Hw cm Hc result Ha e Hr).
      cbn [snd history set_history]. unfold_stages. norm_history.
      by rewrite commit_calls_app. }
  rewrite (executeAudited_resolves env s r f w Hw cm Hc result Ha rv Hr refs Hrefs).
  cbn [snd history]. unfold_stages. norm_history.
  by rewrite commit_calls_app.
Qed.

(** X10. Each convenience method, called with a wallet, makes exactly one
    commit call, for a trace of its own action type; [auditedRebalance]
    commits the portfolio value and no constraints with the confidence of
    the given risk level; transfer, yield deployment and payment commit no
    positions and no constraints; [auditedFeeCollection] always commits
    confidence 90, risk level low and the factor "Routine fee collection". *)
Theorem convenience_methods_commit env s w rationale level factors outcome portfolio f :
  wf s →
  wallet (this s) = Some w →
  let committed (run : State → Outcome nat * State) (t : ReasoningTrace) :=
    commit_calls (history (snd (run s))) = commit_calls (history s) ++ [(w, t)] in
  let kind t := type (trace_action t) in
  let param t k := parameters (trace_action t) !! k in
  (∃ t, committed (auditedRebalance env rationale level factors outcome portfolio f) t
        ∧ kind t = rebalance
        ∧ param t "portfolio_value_usd" = Some (PNumber (totalValueUSD portfolio))
        ∧ param t "constraints" = None
        ∧ confidence (trace_decision t) = RISK_TO_CONFIDENCE level)
  ∧ (∃ t, committed (auditedTransfer env rationale level factors outcome f) t
          ∧ kind t = transfer ∧ param t "positions" = None
          ∧ param t "constraints" = None)
  ∧ (∃ t, committed (auditedYieldDeployment env rationale level factors outcome f) t
          ∧ kind t = yield_deployment ∧ param t "positions" = None
          ∧ param t "constraints" = None)
  ∧ (∃ t, committed (auditedPayment env rationale level factors outcome f) t
          ∧ kind t = payment ∧ param t "positions" = None
          ∧ param t "constraints" = None)
  ∧ (∃ t, committed (auditedFeeCollection env rationale outcome f) t
          ∧ kind t = fee_collection
          ∧ confidence (trace_decision t) = 90%float
          ∧ param t "risk_level" = Some (PString (js "low"))
          ∧ param t "risk_factors" = Some (PStrings [js "Routine fee collection"])).
Proof.
  intros Hwf Hw committed kind param. subst committed kind param. cbv beta.
  repeat split.
  all: eexists; split;
    [ by apply (executeAudited_commits_once env _ f s w Hwf Hw) | ].
  all: repeat split; vm_compute; reflexivity.
Qed.

Lemma convenience_methods_commit_witness :
  ∃ t,
    commit_calls
      (history (snd (auditedFeeCollection Sample.world (js "Claim WETH fees")
                       (js "Fees arrive in the treasury wallet") Sample.succeeds
                       Sample.ready)))
    = commit_calls (history Sample.ready) ++ [(Sample.agent_wallet, t)]
    ∧ type (trace_action t) = fee_collection
    ∧ confidence (trace_decision t) = 90%float
    ∧ parameters (trace_action t) !! "risk_level" = Some (PString (js "low"))
    ∧ parameters (trace_action t) !! "risk_factors"
      = Some (PStrings [js "Routine fee collection"]).
Proof.
  apply (convenience_methods_commit Sample.world Sample.ready Sample.agent_wallet
           (js "Claim WETH fees") low [] (js "Fees arrive in the treasury wallet")
           {| totalValueUSD := 0%float; positions := ∅ |} Sample.succeeds
           sample_ready_wf eq_refl).
Defined.



(** If a run resolved, this is how. *)
Lemma executeAudited_resolved_inv env r f s ref s' :
  wf s →
  executeAudited env r f s = (Resolved ref, s') →
  ∃ w cm result rv,
    record_at (store s') ref = Some (audit_record s r w env cm rv result)
    ∧ history s' = after_reveal s r w cm rv.
Proof.
  intros Hwf Hrun.
  destruct (wallet (this s)) as [w|] eqn:Hw.
  2:{ by rewrite executeAudited_not_initialized in Hrun. }
  destruct (commitReasoning env (before_commit s r) w (toReasoningTrace r))
    as [cm|e] eqn:Hc.
  2:{ by rewrite (executeAudited_commit_fails env s r f w Hw e Hc) in Hrun. }
  destruct (f (before_action s r w cm)) as [result|e] eqn:Ha.
  2:{ by rewrite (executeAudited_action_fails env s r f w Hw cm Hc e Ha) in Hrun. }
  destruct (revealReasoning env (before_reveal s r w cm) w
              (commitmentAddress cm) (buildReasoningUri (this s) r cm))
    as [rv|e] eqn:Hr.
  2:{ by rewrite (executeAudited_reveal_fails env s r f w Hw cm Hc result Ha e Hr)
        in Hrun. }
  apply wf_ledger in Hwf as [recs Hrecs].
  destruct (ledger_refs_records _ _ Hrecs) as (refs & Hrefs & Hmap).
  rewrite (executeAudited_resolves env s r f w Hw cm Hc result Ha rv Hr refs Hrefs)
    in Hrun.
  injection Hrun as <- <-.
  destruct (ledger_after_push (store s) (actionLog (this s)) refs recs
              (audit_record s r w env cm rv result) Hrefs Hmap)
    as (_ & Hnew & _).
  exists w, cm, result, rv. by split.
Qed.



(** X7. Without a storage URI (unset or empty), the one reveal call of a
    run that resolves publishes, as the location of the reasoning, the
    [explorerUrl] of the record the run returns. *)
Theorem default_reveal_uri_is_explorerUrl env r f s ref s' :
  wf s →
  truthy_string (reasoningStorageUri (config (this s))) = None →
  executeAudited env r f s = (Resolved ref, s') →
  ∃ rec w,
    record_at (store s') ref = Some rec
    ∧ reveal_calls (history s')
      = reveal_calls (history s)
        ++ [(w, commitmentAddress (commit rec), explorerUrl rec)].
Proof.
  intros Hwf Hnone Hrun.
  destruct (executeAudited_resolved_inv env r f s ref s' Hwf Hrun)
    as (w & cm & result & rv & Hrec & Hhist).
  exists (audit_record s r w env cm rv result), w.
  split; [exact Hrec|]. rewrite Hhist.
  cbn [audit_record commit explorerUrl]. unfold_stages. norm_history.
  rewrite reveal_calls_app. cbn [reveal_calls omap list_omap].
  unfold buildReasoningUri, buildExplorerUrl. by rewrite Hnone.
Qed.

Lemma default_reveal_uri_is_explorerUrl_witness :
  ∃ rec w,
    record_at (store Sample.after_one) 1%nat = Some rec
    ∧ reveal_calls (history Sample.after_one)
      = reveal_calls (history Sample.ready)
        ++ [(w, commitmentAddress (commit rec), explorerUrl rec)].
Proof.
  apply (default_reveal_uri_is_explorerUrl Sample.world Sample.rebalancing
           Sample.succeeds Sample.ready 1%nat Sample.after_one).
  - exact sample_ready_wf.
  - reflexivity.
  - vm_compute. reflexivity.
Defined.

(** X8. Round trip: for the record of a run that resolved, [verifyAction]
    on the record's commitment address and reasoning sends the client the
    very trace that run committed, and a verification it returns carries the
    record's [explorerUrl]. *)
Theorem verifyAction_of_audited_record env r f s ref s1 :
  wf s →
  executeAudited env r f s = (Resolved ref, s1) →
  ∃ rec w trace,
    record_at (store s1) ref = Some rec
    ∧ CommitReasoning w trace ∈ history s1
    ∧ ∀ s2,
        history (snd (verifyAction env (commitmentAddress (commit rec))
                        (reasoning rec) s2))
        = history s2 ++ [VerifyReasoning (commitmentAddress (commit rec)) trace]
        ∧ ∀ v,
            fst (verifyAction env (commitmentAddress (commit rec))
                   (reasoning rec) s2) = Resolved v →
            verification_explorerUrl v = explorerUrl rec.
Proof.
  intros Hwf Hrun.
  destruct (executeAudited_resolved_inv env r f s ref s1 Hwf Hrun)
    as (w & cm & result & rv & Hrec & Hhist).
  exists (audit_record s r w env cm rv result), w, (toReasoningTrace r).
  split; [exact Hrec|]. split.
  { rewrite Hhist. unfold_stages. norm_history.
    apply elem_of_app. right. do 4 apply list_elem_of_further.
    apply list_elem_of_here. }
  intros s2. cbn [audit_record commit reasoning explorerUrl]. run_m.
  destruct (verifyReasoning env (history s2) (commitmentAddress cm)
              (toReasoningTrace r)) as [v'|e]; cbn [fst snd history].
  - split; [reflexivity|]. by intros v [= <-].
  - split; [reflexivity|]. by intros v [=].
Qed.

Lemma verifyAction_of_audited_record_witness :
  ∃ rec w trace,
    record_at (store Sample.after_one) 1%nat = Some rec
    ∧ CommitReasoning w trace ∈ history Sample.after_one
    ∧ ∀ s2,
        history (snd (verifyAction Sample.world (commitmentAddress (commit rec))
                        (reasoning rec) s2))
        = history s2 ++ [VerifyReasoning (commitmentAddress (commit rec)) trace]
        ∧ ∀ v,
            fst (verifyAction Sample.world (commitmentAddress (commit rec))
                   (reasoning rec) s2) = Resolved v →
            verification_explorerUrl v = explorerUrl rec.
Proof.
  apply (verifyAction_of_audited_record Sample.world Sample.rebalancing
           Sample.succeeds Sample.ready 1%nat Sample.after_one).
  - exact sample_ready_wf.
  - vm_compute. reflexivity.
Defined.

(** The string of a risk level determines the level. *)
Lemma level_name_inj l1 l2 : level_name l1 = level_name l2 → l1 = l2.
Proof. destruct l1, l2; vm_compute; congruence. Qed.

(** X9. [toReasoningTrace] loses nothing: reasonings with the same trace
    are the same reasoning. *)
Theorem toReasoningTrace_inj r1 r2 :
  toReasoningTrace r1 = toReasoningTrace r2 → r1 = r2.
Proof.
  intros H.
  assert (Hparams : ∀ k,
            parameters (trace_action (toReasoningTrace r1)) !! k
            = parameters (trace_action (toReasoningTrace r2)) !! k)
    by (by rewrite H).
  pose proof (Hparams "risk_level") as Hlevel.
  pose proof (Hparams "risk_factors") as Hfactors.
  pose proof (Hparams "portfolio_value_usd") as Hvalue.
  pose proof (Hparams "positions") as Hpositions.
  pose proof (Hparams "constraints") as Hconstraints.
  clear Hparams.
  apply (f_equal (fun t => (type (trace_action t), description (trace_action t),
                            decision_expectedOutcome (trace_decision t)))) in H.
  destruct r1 as [a1 rat1 [l1 fs1] eo1 pc1 cs1], r2 as [a2 rat2 [l2 fs2] eo2 pc2 cs2].
  unfold toReasoningTrace, createReasoningTrace in *.
  cbn [trace_action trace_decision parameters type description
       decision_expectedOutcome action rationale risk level factors
       expectedOutcome portfolioContext constraints] in *.
  injection H as -> -> ->.
  destruct pc1 as [[v1 p1]|], pc2 as [[v2 p2]|], cs1 as [c1|], cs2 as [c2|];
    vm_compute in Hlevel, Hfactors, Hvalue, Hpositions, Hconstraints;
    try discriminate.
  all: injection Hfactors as ->.
  all: assert (l1 = l2) as -> by (apply level_name_inj; vm_compute; congruence).
  all: try (injection Hvalue as ->; injection Hpositions as ->).
  all: try injection Hconstraints as ->.
  all: reflexivity.
Qed.

Lemma toReasoningTrace_inj_witness :
  {| action := payment;
     rationale := js "Monthly OpenRouter payment";
     risk := {| level := medium; factors := [js "Recurring payment"] |};
     expectedOutcome := js "API access maintained";
     portfolioContext := None;
     constraints := Some [js "max 50 USDC"] |} = Sample.paying.
Proof.
  apply (toReasoningTrace_inj _ Sample.paying). reflexivity.
Defined.

(* ====================================================================== *)
(** * Properties of the treasury, the fee collector and the commands *)

Ltac run_w :=
  cbv [wbind wret wthrow wtry wcall wpure new_date print print_error
       getBaseETHBalance getSolanaSOLBalance getAllBalances calculateRunway
       getStatus read_feesToClaim write_claim wait_receipt checkWETHFees
       checkTokenFees claimWETHFees claimTokenFees collectAllFees
       newClawnchFeeCollector
       cbind cret ctry process_exit await console_log_line require_wallets].

Ltac norm_chain :=
  repeat rewrite <- (app_assoc (A := ChainEvent)) in *; cbn [app] in *.

(** Case analysis on the next answer of the outside world. *)
Ltac next_answer :=
  match goal with
  | |- context [baseGetBalance ?e ?h ?a] =>
    destruct (baseGetBalance e h a) eqn:?
  | |- context [newPublicKey ?e ?a] => destruct (newPublicKey e a) eqn:?
  | |- context [solanaGetBalance ?e ?h ?a] =>
    destruct (solanaGetBalance e h a) eqn:?
  | |- context [BigInt ?x] => destruct (BigInt x) eqn:?
  end.

Lemma infinity_never_less x : (infinity <? x)%float = false.
Proof.
  rewrite ltb_spec. change (Prim2SF infinity) with (S754_infinity false).
  unfold SFltb, SFcompare. by destruct (Prim2SF x) as [[]|[]| |[]].
Qed.

Lemma zero_usd_total (bs : list TreasuryBalance) :
  Forall (fun b => usdValue b = 0%float) bs →
  fold_left (fun sum b => (sum + usdValue b)%float) bs 0%float = 0%float.
Proof.
  induction 1 as [|b bs Hb _ IH]; [done|]. cbn [fold_left]. by rewrite Hb.
Qed.

(** X12. [getAllBalances] never rejects, whatever the two RPC clients do:
    it returns at most the Base ETH entry followed by the Solana SOL entry,
    each with [usdValue] 0, and writes one [console.error] line for each
    entry that is missing; the Base read comes first, a Base balance that
    was read is the first entry with the amount read, and a failed Base read
    does not stop the Solana read. *)
Theorem getAllBalances_never_rejects env config h :
  ∃ bs new,
    getAllBalances env config h = (Resolved bs, h ++ new)
    ∧ Forall (fun b => usdValue b = 0%float) bs
    ∧ ((fun b => (chain b, token b)) <$> bs)
        `sublist_of` [(chain_base, js "ETH"); (chain_solana, js "SOL")]
    ∧ (length bs + length (error_lines new) = 2)%nat
    ∧ (∃ rest, new = BaseGetBalance (base (wallets config)) :: rest)
    ∧ (∀ z, baseGetBalance env h (base (wallets config)) = Resolved z →
            ∃ b, head bs = Some b ∧ chain b = chain_base ∧ amount b = z)
    ∧ (∀ e, baseGetBalance env h (base (wallets config)) = Rejected e →
            Forall (fun b => chain b = chain_solana) bs
            ∧ ∀ key, newPublicKey env (solana (wallets config)) = Resolved key →
                     SolanaGetBalance key ∈ new).
Proof.
  run_w. repeat next_answer; norm_chain.
  all: eexists _, _; split; [reflexivity|].
  all: split; [repeat constructor|].
  all: split; [cbn [fmap list_fmap chain token];
               repeat first [apply sublist_nil | apply sublist_skip; [] | apply sublist_cons
                            | apply sublist_skip ] |].
  all: split; [reflexivity|].
  all: split; [by eexists|].
  all: split; [intros ? [=]; subst; eauto|].
  all: intros ? [=]; subst.
  all: split; [repeat constructor|].
  all: intros ? [=]; subst.
  all: set_solver.
Qed.

Lemma getAllBalances_zero_usd env config h :
  ∃ bs new,
    getAllBalances env config h = (Resolved bs, h ++ new)
    ∧ Forall (fun b => usdValue b = 0%float) bs
    ∧ printed new = [].
Proof.
  run_w. repeat next_answer; norm_chain.
  all: eexists _, _; split; [reflexivity|].
  all: split; [repeat constructor|reflexivity].
Qed.

Lemma getStatus_cases env config burn h :
  ∃ bs date new,
    getStatus env config burn h
    = (Resolved {| balances := bs;
                   runway := {| totalBalanceUSD := 0%float;
                                monthlyBurnRateUSD := default 0%float burn;
                                daysRemaining := infinity;
                                alertThreshold := thresholdDays (runwayAlert config);
                                lastCalculated := date |};
                   alerts := [] |}, h ++ new)
    ∧ Forall (fun b => usdValue b = 0%float) bs
    ∧ printed new = [].
Proof.
  destruct (getAllBalances_zero_usd env config h) as (bs & new & Hrun & Hbs & Hnew).
  unfold getStatus, wbind at 1. rewrite Hrun.
  rewrite (zero_usd_total bs Hbs).
  run_w. cbn [daysRemaining].
  change (0 <? 0)%float with false. cbn [andb].
  rewrite infinity_never_less.
  eexists _, _, _. split; [by rewrite <- app_assoc|].
  split; [done|]. unfold printed in *. by rewrite omap_app, Hnew.
Qed.

(** X13. [getStatus] always resolves, and for every configuration, burn
    rate and balance on the chains its total is 0 USD, its [daysRemaining]
    is [Infinity] and its list of alerts is empty: the low-runway alert
    cannot fire; [formatRunway] shows that runway as "Days Remaining: ∞". *)
Theorem getStatus_never_alerts env config burn h :
  ∃ status h',
    getStatus env config burn h = (Resolved status, h')
    ∧ alerts status = []
    ∧ totalBalanceUSD (runway status) = 0%float
    ∧ daysRemaining (runway status) = infinity
    ∧ ∃ total monthly threshold,
        formatRunway env (runway status)
        = join [10%N] [total; monthly; js "Days Remaining: ∞"; threshold].
Proof.
  destruct (getStatus_cases env config burn h) as (bs & date & new & -> & _).
  eexists _, _. split; [reflexivity|]. cbn [alerts runway totalBalanceUSD daysRemaining].
  do 3 (split; [reflexivity|]). unfold formatRunway. cbn [daysRemaining].
  change (PrimFloat.eqb infinity infinity) with true. cbv iota.
  eexists _, _, _. do 3 f_equal.
Qed.

Lemma checked_cons e h :
  checked (e :: h)
  = match e with ReadFeesToClaim _ t => t :: checked h | _ => checked h end.
Proof. by destruct e. Qed.

Lemma claimed_cons e h :
  claimed (e :: h)
  = match e with WriteClaim _ t => t :: claimed h | _ => claimed h end.
Proof. by destruct e. Qed.

Ltac next_fee :=
  match goal with
  | |- context [feesToClaim ?e ?h ?o ?t] => destruct (feesToClaim e h o t) eqn:?
  | |- context [claim ?e ?h ?o ?t] => destruct (claim e h o t) eqn:?
  | |- context [waitForTransactionReceipt ?e ?h ?x] =>
    destruct (waitForTransactionReceipt e h x) as [[]|] eqn:?
  | |- context [(0 <? ?z)%Z] => destruct (0 <? z)%Z eqn:?
  end.

(** The rejected call is the last event. *)
Ltac stopped_with pre :=
  exists pre; eexists; split; [reflexivity|]; norm_chain; rewrite ?app_nil_r;
  cbn [rejected_by]; eassumption.

Ltac stopped_here :=
  first [ stopped_with (@nil ChainEvent)
        | match goal with |- ∃ pre call, [?a; _] = _ ∧ _ => stopped_with [a] end
        | match goal with |- ∃ pre call, [?a; ?b; _] = _ ∧ _ =>
            stopped_with [a; b] end
        | match goal with |- ∃ pre call, [?a; ?b; ?c; _] = _ ∧ _ =>
            stopped_with [a; b; c] end
        | match goal with |- ∃ pre call, [?a; ?b; ?c; ?d; _] = _ ∧ _ =>
            stopped_with [a; b; c; d] end
        | match goal with |- ∃ pre call, [?a; ?b; ?c; ?d; ?e; _] = _ ∧ _ =>
            stopped_with [a; b; c; d; e] end
        | match goal with |- ∃ pre call, [?a; ?b; ?c; ?d; ?e; ?f; _] = _ ∧ _ =>
            stopped_with [a; b; c; d; e; f] end ].

(** The rejected call is the last event of the rest of the run. *)
Ltac stopped_later H :=
  let pre := fresh "pre" in
  let call := fresh "call" in
  let Hrej := fresh "Hrej" in
  destruct H as (pre & call & -> & Hrej);
  norm_chain;
  eexists; exists call; split;
  [rewrite ?app_comm_cons; reflexivity|exact Hrej].

Lemma for_tokens_accounting env this ts : ∀ result h,
  ∃ out new,
    for_tokens env this ts result h = (out, h ++ new)
    ∧ checked new `prefix_of` ts
    ∧ claimed new `sublist_of` checked new
    ∧ Forall (owned_by (address this)) new
    ∧ match out with
      | Resolved r =>
        checked new = ts
        ∧ wethClaimed r = wethClaimed result
        ∧ wethAmount r = wethAmount result
        ∧ tokensClaimed r = tokensClaimed result ++ claimed new
      | Rejected e =>
        ∃ pre call, new = pre ++ [call] ∧ rejected_by env (h ++ pre) call e
      end.
Proof.
  induction ts as [|t ts IH]; intros result h.
  { exists (Resolved result), []. rewrite !app_nil_r. cbn.
    repeat split; try done. }
  cbn [for_tokens]. run_w. cbn [amountAvailable].
  repeat next_fee; norm_chain.
  all: try (eexists _, _; split; [reflexivity|];
            split; [by apply prefix_cons, prefix_nil|];
            split; [repeat constructor|];
            split; [repeat constructor|stopped_here]).
  - match goal with |- context [for_tokens env this ts ?r ?h'] =>
      destruct (IH r h') as (out & new & -> & Hpre & Hsub & Hown & Hout) end.
    norm_chain. eexists _, _. split; [reflexivity|].
    rewrite !checked_cons, !claimed_cons.
    split; [by apply prefix_cons|]. split; [by apply sublist_skip|].
    split; [repeat constructor; done|].
    destruct out as [r|]; [|by stopped_later Hout].
    destruct Hout as (-> & -> & -> & ->).
    cbn [wethClaimed wethAmount tokensClaimed]. by rewrite <- app_assoc.
  - match goal with |- context [for_tokens env this ts ?r ?h'] =>
      destruct (IH r h') as (out & new & -> & Hpre & Hsub & Hown & Hout) end.
    norm_chain. eexists _, _. split; [reflexivity|].
    rewrite !checked_cons, !claimed_cons.
    split; [by apply prefix_cons|]. split; [by apply sublist_cons|].
    split; [repeat constructor; done|].
    destruct out as [r|]; [|by stopped_later Hout].
    by destruct Hout as (-> & -> & -> & ->).
Qed.

(** X14. The accounting of [collectAllFees]: it reads the fees of WETH and
    then of the given tokens in order, stopping early only when it rejects;
    it claims only tokens whose fees it has read, in that order, and every
    read and claim is for the collector's own account; when it resolves it
    has read all of them, the claims it sent are WETH when [wethClaimed] is
    set followed by [tokensClaimed], [tokensClaimed] is a sublist of the
    given tokens, and [wethAmount] is "0" when WETH was not claimed. *)
Theorem collectAllFees_accounting env this tokens h :
  ∃ out new,
    collectAllFees env this tokens h = (out, h ++ new)
    ∧ checked new `prefix_of` WETH_ADDRESS :: default [] tokens
    ∧ claimed new `sublist_of` checked new
    ∧ Forall (owned_by (address this)) new
    ∧ match out with
      | Resolved result =>
        checked new = WETH_ADDRESS :: default [] tokens
        ∧ claimed new
          = (if wethClaimed result then [WETH_ADDRESS] else [])
            ++ tokensClaimed result
        ∧ tokensClaimed result `sublist_of` default [] tokens
        ∧ (wethClaimed result = false → wethAmount result = js "0")
      | Rejected _ => True
      end.
Proof.
  unfold collectAllFees. run_w. cbn [amountAvailable tokensClaimed].
  repeat next_fee; norm_chain.
  all: try (eexists _, _; split; [reflexivity|];
            split; [by apply prefix_cons, prefix_nil|];
            split; [repeat constructor|];
            split; [repeat constructor|done]).
  all: match goal with |- context [for_tokens ?e ?c ?ts ?r ?h'] =>
         destruct (for_tokens_accounting e c ts r h')
           as (out & new & -> & Hpre & Hsub & Hown & Hout) end.
  all: norm_chain; eexists _, _; (split; [reflexivity|]).
  all: rewrite !checked_cons, !claimed_cons.
  all: split; [by apply prefix_cons|].
  all: split; [by first [apply sublist_skip | apply sublist_cons]|].
  all: split; [repeat constructor; done|].
  all: destruct out as [r|]; [|done].
  all: destruct Hout as (Hall & -> & -> & ->).
  all: cbn [wethClaimed wethAmount tokensClaimed app].
  all: rewrite Hall; split; [done|]; split; [done|].
  all: split; [by rewrite <- Hall|done].
Qed.

(** X15. [collectAllFees] has no error handling of its own: when it
    rejects, the last thing it did is the chain call (fee read, claim or
    wait for the receipt) that rejected with that error; nothing is retried
    and no later token is looked at. *)
Theorem collectAllFees_stops_at_failure env this tokens h :
  ∃ out new,
    collectAllFees env this tokens h = (out, h ++ new)
    ∧ ∀ e, out = Rejected e →
           ∃ pre call, new = pre ++ [call] ∧ rejected_by env (h ++ pre) call e.
Proof.
  unfold collectAllFees. run_w. cbn [amountAvailable tokensClaimed].
  repeat next_fee; norm_chain.
  all: try (eexists _, _; split; [reflexivity|]; intros ? [= <-]; stopped_here).
  all: match goal with |- context [for_tokens ?e ?c ?ts ?r ?h'] =>
         destruct (for_tokens_accounting e c ts r h')
           as (out & new & -> & _ & _ & _ & Hout) end.
  all: norm_chain; eexists _, _; (split; [reflexivity|]).
  all: intros e ->; by stopped_later Hout.
Qed.




Ltac run_c :=
  cbv [cbind cret ctry process_exit await console_log_line require_wallets
       print print_error wcall wpure wbind wret newClawnchFeeCollector].

Lemma or_else_unset x : truthy_string x = None → or_else x [] = [].
Proof. unfold or_else. by intros ->. Qed.



Lemma require_wallets_missing config h :
  base (wallets config) = [] ∨ solana (wallets config) = [] →
  require_wallets config h = (Exit 1, h ++ [PrintError wallets_missing None]).
Proof.
  intros Hmissing. unfold require_wallets, wallets_missing.
  destruct Hmissing as [-> | ->].
  - rewrite (bool_decide_eq_true_2 _ (eq_refl (@nil N))). cbn [orb].
    run_c. reflexivity.
  - rewrite (bool_decide_eq_true_2 _ (eq_refl (@nil N))), orb_true_r.
    run_c. reflexivity.
Qed.

(** X17. When [BASE_WALLET] or [SOLANA_WALLET] is unset or empty, the
    commands [balance], [runway] and [status] print one error line and exit
    with code 1 without any call on a chain. *)
Theorem treasury_commands_require_wallets env penv burn burn' h :
  truthy_string (penv !! "BASE_WALLET") = None
  ∨ truthy_string (penv !! "SOLANA_WALLET") = None →
  let refused := (Exit 1, h ++ [PrintError wallets_missing None]) in
  balance_command env penv h = refused
  ∧ runway_command env penv burn h = refused
  ∧ status_command env penv burn' h = refused.
Proof.
  intros Hunset refused.
  assert (∀ threshold,
    require_wallets
      {| wallets := {| base := or_else (penv !! "BASE_WALLET") [];
                       solana := or_else (penv !! "SOLANA_WALLET") [] |};
         feeSources := []; yieldTargets := {| morpho := None; kamino := None |};
         runwayAlert := {| thresholdDays := threshold; notifyEmail := None;
                           notifyWebhook := None |};
         payments := [] |} h = refused) as Hrefused.
  { intros threshold. apply require_wallets_missing. cbn [wallets base solana].
    destruct Hunset as [H|H]; [left|right]; by apply or_else_unset. }
  unfold balance_command, runway_command, status_command, balance_config,
    runway_config, ctry, cbind.
  rewrite !Hrefused. repeat split.
Qed.

Lemma treasury_commands_require_wallets_witness :
  let refused := (Exit 1, [PrintError wallets_missing None]) in
  balance_command SampleChain.world ∅ [] = refused
  ∧ runway_command SampleChain.world ∅ (js "100") [] = refused
  ∧ status_command SampleChain.world ∅ None [] = refused.
Proof.
  apply (treasury_commands_require_wallets SampleChain.world ∅ (js "100") None []).
  left. reflexivity.
Defined.





Lemma collectAllFees_extends env this tokens h :
  ∃ out new, collectAllFees env this tokens h = (out, h ++ new).
Proof.
  unfold collectAllFees. run_w. cbn [amountAvailable tokensClaimed].
  repeat next_fee; norm_chain.
  all: try (eexists _, _; reflexivity).
  all: match goal with |- context [for_tokens ?e ?c ?ts ?r ?h'] =>
         destruct (for_tokens_accounting e c ts r h') as (out & new & -> & _) end.
  all: norm_chain; eexists _, _; reflexivity.
Qed.

(** X19. The [collect] command ends normally or with exit code 1, never
    by an exception; without [BASE_PRIVATE_KEY] (unset or empty) it exits 1
    after one error line and no other step; it ends normally exactly when
    the key is accepted and [collectAllFees] resolves; when it exits 1 the
    last thing it did is a [console.error]. *)
Theorem collect_command_outcome env penv tokens h :
  ∃ step new,
    collect_command env penv tokens h = (step, h ++ new)
    ∧ (step = Done tt ∨ step = Exit 1)
    ∧ (truthy_string (penv !! "BASE_PRIVATE_KEY") = None →
       step = Exit 1 ∧ new = [PrintError key_missing None])
    ∧ (step = Done tt ↔
       ∃ key account result h',
         truthy_string (penv !! "BASE_PRIVATE_KEY") = Some key
         ∧ privateKeyToAccount env key = Resolved account
         ∧ collectAllFees env {| address := account |} (Some (default [] tokens))
             (h ++ [Print (js "🔍 Checking available fees..." ++ [10%N])])
           = (Resolved result, h'))
    ∧ (step = Exit 1 → ∃ line error, last new = Some (PrintError line error)).
Proof.
  unfold collect_command, key_missing. cbv zeta.
  destruct (truthy_string (penv !! "BASE_PRIVATE_KEY")) as [key|].
  2:{ run_c. eexists _, _. split; [reflexivity|]. split; [by right|].
      split; [done|]. split; [|by eexists _, _].
      split; [discriminate|]. intros (? & ? & ? & ? & Hkey & _). discriminate. }
  unfold ctry, cbind at 1 2. unfold cret at 1. unfold cbind at 1.
  unfold await at 1, newClawnchFeeCollector, wbind, wpure, wret.
  destruct (privateKeyToAccount env key) as [account|e] eqn:Haccount.
  2:{ run_c. eexists _, _. split; [reflexivity|]. split; [by right|].
      split; [done|]. split; [|by eexists _, _].
      split; [discriminate|]. intros (? & ? & ? & ? & [= <-] & Hacc & _).
      congruence. }
  unfold cbind at 1 2. unfold console_log_line at 1, await at 1, print at 1, wcall at 1.
  unfold cbind at 1. unfold await at 1.
  match goal with |- context [collectAllFees ?e ?c ?ts ?h'] =>
    destruct (collectAllFees_extends e c ts h') as (out & new & Hrun) end.
  rewrite Hrun. destruct out as [result|e].
  2:{ run_c. norm_chain. eexists _, _. split; [reflexivity|].
      split; [by right|]. split; [done|].
      split; [split; [discriminate|]|].
      - intros (? & ? & ? & ? & [= <-] & Hacc & Hrun').
        rewrite Haccount in Hacc. injection Hacc as <-.
        rewrite Hrun in Hrun'. discriminate.
      - intros _. eexists _, _. rewrite app_comm_cons. apply last_snoc. }
  run_c.
  destruct (wethClaimed result), (0 <? length (tokensClaimed result))%nat.
  all: norm_chain; eexists _, _; (split; [reflexivity|]); (split; [by left|]).
  all: split; [done|]; split; [|discriminate].
  all: split; [|done]; intros _; by eexists _, _, _, _.
Qed.
